(** * kana-dojo: the resource query engine and the stroke serializer

    A shallow embedding of
      - [features/Resources/lib/filters.ts]   (predicate filters, combinator),
      - [features/Resources/lib/search.ts]    (search matcher),
      - [features/Resources/lib/counts.ts]    (count aggregator),
      - [features/Resources/lib/validateResource.ts] (schema validation),
      - [features/Calligraphy/services/strokeSerializer.ts] (stroke JSON codec),
    together with the part of the JavaScript run time these functions call
    (strings, [typeof], [Array.prototype.join], [JSON.stringify],
    [JSON.parse]).  Definitions come first, theorems afterwards. *)

From Stdlib Require Import String Ascii DecimalString.
From Stdlib Require Import List NArith ZArith Bool Arith Lia Permutation.
From Stdlib Require Import Floats.SpecFloat.
Import ListNotations.

Set Implicit Arguments.
Set Warnings "-register-all".

(* ================================================================== *)
(** ** JavaScript strings *)
(* ================================================================== *)

(** A JavaScript string is a finite sequence of UTF-16 code units. *)
Module JsString.

Definition t : Type := list N.

(** The string written by an ASCII literal of the source. *)
Definition ofLiteral (s : string) : t :=
  map N_of_ascii (list_ascii_of_string s).

(** Strict equality [===] on strings: same code units. *)
Fixpoint eqb (a b : t) : bool :=
  match a, b with
  | [], [] => true
  | x :: a', y :: b' => N.eqb x y && eqb a' b'
  | _, _ => false
  end.

(** The code units that [String.prototype.trim] strips: ECMAScript
    WhiteSpace (TAB, VT, FF, SP, NBSP, ZWNBSP and the category Zs) and
    LineTerminator (LF, CR, LS, PS). *)
Definition whiteSpaceUnits : list N :=
  [ 9; 10; 11; 12; 13; 32; 160; 5760;
    8192; 8193; 8194; 8195; 8196; 8197; 8198; 8199; 8200; 8201; 8202;
    8232; 8233; 8239; 8287; 12288; 65279 ]%N.

Definition isWhiteSpace (c : N) : bool := existsb (N.eqb c) whiteSpaceUnits.

Fixpoint trimStart (s : t) : t :=
  match s with
  | [] => []
  | c :: s' => if isWhiteSpace c then trimStart s' else s
  end.

Definition trimEnd (s : t) : t := rev (trimStart (rev s)).

(** [s.trim()] *)
Definition trim (s : t) : t := trimEnd (trimStart s).

Fixpoint startsWith (s prefix : t) : bool :=
  match prefix, s with
  | [], _ => true
  | _ :: _, [] => false
  | p :: prefix', c :: s' => N.eqb c p && startsWith s' prefix'
  end.

(** [s.includes(needle)]: [needle] occurs in [s] as a contiguous run. *)
Fixpoint includes (s needle : t) : bool :=
  startsWith s needle ||
  match s with
  | [] => false
  | _ :: s' => includes s' needle
  end.

(** Case mapping.  [toLowerCase] and [toUpperCase] follow the Unicode
    default case conversion.  The model covers the Basic Latin block
    (U+0000..U+007F) and U+00DF LATIN SMALL LETTER SHARP S, whose upper
    case is the two code units of "SS"; every other code unit is left
    as it is.  Statements below that depend on what the case mapping does
    to a particular string are made for Basic Latin strings only. *)
Definition lowerUnit (c : N) : list N :=
  if (65 <=? c)%N && (c <=? 90)%N then [(c + 32)%N] else [c].

Definition upperUnit (c : N) : list N :=
  if (97 <=? c)%N && (c <=? 122)%N then [(c - 32)%N]
  else if (c =? 223)%N then [83%N; 83%N]
  else [c].

Definition toLowerCase (s : t) : t := flat_map lowerUnit s.
Definition toUpperCase (s : t) : t := flat_map upperUnit s.


(** The decimal text of an array index, as a template literal renders
    it. *)
Definition ofIndex (i : nat) : t :=
  ofLiteral (NilZero.string_of_uint (Nat.to_uint i)).

(** [parts.join(sep)] for an array of strings. *)
Fixpoint join (sep : t) (parts : list t) : t :=
  match parts with
  | [] => []
  | [p] => p
  | p :: rest => p ++ sep ++ join sep rest
  end.

End JsString.

Definition js (s : string) : JsString.t := JsString.ofLiteral s.
Arguments js s%_string.

(** [xs.includes(s)] for an array of strings. *)
Definition includesString (xs : list JsString.t) (s : JsString.t) : bool :=
  existsb (JsString.eqb s) xs.

(* ================================================================== *)
(** ** JavaScript values *)
(* ================================================================== *)

(** Numbers are IEEE 754 binary64 values: two zeros, two infinities, one
    NaN and the finite non-zero values. *)
Definition JsNumber : Type := spec_float.

Definition NaN : JsNumber := S754_nan.
Definition Infinity : JsNumber := S754_infinity false.
Definition posZero : JsNumber := S754_zero false.
Definition negZero : JsNumber := S754_zero true.
(** The literals [1] and [5]. *)
Definition one : JsNumber := S754_finite false 4503599627370496 (-52).
Definition five : JsNumber := S754_finite false 5629499534213120 (-50).

Definition isNaN (x : JsNumber) : bool :=
  match x with S754_nan => true | _ => false end.

Definition isFinite (x : JsNumber) : bool :=
  match x with S754_nan | S754_infinity _ => false | _ => true end.

(** The values a function typed [unknown] can be handed, as far as this
    development follows them: primitives, symbols, arrays and plain objects
    holding data properties (own properties in enumeration order, each key
    at most once).  Functions and objects with accessors are outside the
    model. *)
Inductive JsValue : Type :=
| VUndefined
| VNull
| VBoolean (b : bool)
| VNumber (x : JsNumber)
| VString (s : JsString.t)
| VSymbol
| VArray (elements : list JsValue)
| VObject (properties : list (JsString.t * JsValue)).

Inductive TypeOf : Type :=
| TUndefined | TObject | TBoolean | TNumber | TString | TSymbol.

(** The [typeof] operator. *)
Definition typeOf (v : JsValue) : TypeOf :=
  match v with
  | VUndefined => TUndefined
  | VNull => TObject
  | VBoolean _ => TBoolean
  | VNumber _ => TNumber
  | VString _ => TString
  | VSymbol => TSymbol
  | VArray _ => TObject
  | VObject _ => TObject
  end.

Definition isTypeOf (v : JsValue) (t : TypeOf) : bool :=
  match typeOf v, t with
  | TUndefined, TUndefined | TObject, TObject | TBoolean, TBoolean
  | TNumber, TNumber | TString, TString | TSymbol, TSymbol => true
  | _, _ => false
  end.

Definition isUndefined (v : JsValue) : bool :=
  match v with VUndefined => true | _ => false end.

Definition isNull (v : JsValue) : bool :=
  match v with VNull => true | _ => false end.

(** [Array.isArray(v)] *)
Definition Array_isArray (v : JsValue) : bool :=
  match v with VArray _ => true | _ => false end.

(** [Number.isNaN(v)] *)
Definition Number_isNaN (v : JsValue) : bool :=
  match v with VNumber x => isNaN x | _ => false end.

Fixpoint lookup (k : JsString.t) (ps : list (JsString.t * JsValue)) : JsValue :=
  match ps with
  | [] => VUndefined
  | (k', v) :: ps' => if JsString.eqb k k' then v else lookup k ps'
  end.

(** [v.k] for [v] that is not [null] or [undefined].  The keys read by the
    modelled code ([id], [points], [x], ...) are own properties of plain
    objects only; on arrays and primitives the read gives [undefined]. *)
Definition getProp (v : JsValue) (k : JsString.t) : JsValue :=
  match v with
  | VObject ps => lookup k ps
  | _ => VUndefined
  end.

Definition hasOwn (k : JsString.t) (ps : list (JsString.t * JsValue)) : bool :=
  existsb (fun kv => JsString.eqb k (fst kv)) ps.

(** Errors a modelled function can throw. *)
Inductive JsError : Type :=
| SyntaxError
| TypeError
| Error (message : JsString.t).

(** The outcome of a call: a value, or an exception. *)
Inductive Completion (A : Type) : Type :=
| Normal (a : A)
| Throw (e : JsError).
Arguments Normal {A} a.
Arguments Throw {A} e.

Definition bind {A B} (c : Completion A) (k : A -> Completion B) : Completion B :=
  match c with
  | Normal a => k a
  | Throw e => Throw e
  end.

Notation "x <- c ;; k" := (bind c (fun x => k))
  (at level 61, c at next level, right associativity).

Fixpoint sequence {A} (cs : list (Completion A)) : Completion (list A) :=
  match cs with
  | [] => Normal []
  | c :: cs' => x <- c ;; xs <- sequence cs' ;; Normal (x :: xs)
  end.

Section ToString.

(** [Number::toString], the shortest decimal text that reads back as the
    same binary64 value, is left to the platform. *)
Variable Number_toString : JsNumber -> JsString.t.

(** The abstract operation ToString.  A symbol has no string conversion.
    A plain object is converted by the inherited [Object.prototype.toString]
    unless an own data property [toString] hides it; the hiding value is
    not callable, [valueOf] gives no primitive, and the conversion fails.
    An array is converted by [Array.prototype.join]. *)
Fixpoint ToString (v : JsValue) : Completion JsString.t :=
  match v with
  | VUndefined => Normal (js "undefined")
  | VNull => Normal (js "null")
  | VBoolean true => Normal (js "true")
  | VBoolean false => Normal (js "false")
  | VNumber x => Normal (Number_toString x)
  | VString s => Normal s
  | VSymbol => Throw TypeError
  | VArray l =>
      parts <- sequence
                 (map (fun e => match e with
                                | VUndefined | VNull => Normal []
                                | _ => ToString e
                                end) l) ;;
      Normal (JsString.join (js ",") parts)
  | VObject ps =>
      if hasOwn (js "toString") ps then Throw TypeError
      else Normal (js "[object Object]")
  end.

(** [xs.join(sep)] for an array of arbitrary values: [undefined] and
    [null] give the empty string, everything else goes through
    ToString. *)
Definition Array_join (sep : JsString.t) (xs : list JsValue)
  : Completion JsString.t :=
  parts <- sequence
             (map (fun e => match e with
                            | VUndefined | VNull => Normal []
                            | _ => ToString e
                            end) xs) ;;
  Normal (JsString.join sep parts).

End ToString.

(* ================================================================== *)
(** ** Resources: types  ([features/Resources/types]) *)
(* ================================================================== *)

Inductive DifficultyLevel : Type :=
| beginner | intermediate | advanced | all_levels.

Inductive PriceType : Type :=
| free | freemium | paid | subscription.

Inductive Platform : Type :=
| web | ios | android | windows | macos | linux | physical
| browser_extension | api.

Inductive CategoryId : Type :=
| apps | websites | textbooks | youtube | podcasts | games | jlpt | reading
| listening | speaking | writing | grammar | vocabulary | kanji | immersion
| community.

(** The string each member of a union type is at run time. *)
Definition DifficultyLevel_name (d : DifficultyLevel) : JsString.t :=
  match d with
  | beginner => js "beginner"
  | intermediate => js "intermediate"
  | advanced => js "advanced"
  | all_levels => js "all-levels"
  end.

Definition PriceType_name (p : PriceType) : JsString.t :=
  match p with
  | free => js "free"
  | freemium => js "freemium"
  | paid => js "paid"
  | subscription => js "subscription"
  end.

Definition Platform_name (p : Platform) : JsString.t :=
  match p with
  | web => js "web"
  | ios => js "ios"
  | android => js "android"
  | windows => js "windows"
  | macos => js "macos"
  | linux => js "linux"
  | physical => js "physical"
  | browser_extension => js "browser-extension"
  | api => js "api"
  end.

Definition CategoryId_name (c : CategoryId) : JsString.t :=
  match c with
  | apps => js "apps"
  | websites => js "websites"
  | textbooks => js "textbooks"
  | youtube => js "youtube"
  | podcasts => js "podcasts"
  | games => js "games"
  | jlpt => js "jlpt"
  | reading => js "reading"
  | listening => js "listening"
  | speaking => js "speaking"
  | writing => js "writing"
  | grammar => js "grammar"
  | vocabulary => js "vocabulary"
  | kanji => js "kanji"
  | immersion => js "immersion"
  | community => js "community"
  end.

(** [===] on members of the union types. *)
Definition DifficultyLevel_eqb (a b : DifficultyLevel) : bool :=
  match a, b with
  | beginner, beginner | intermediate, intermediate
  | advanced, advanced | all_levels, all_levels => true
  | _, _ => false
  end.

Definition PriceType_eqb (a b : PriceType) : bool :=
  match a, b with
  | free, free | freemium, freemium | paid, paid
  | subscription, subscription => true
  | _, _ => false
  end.

Definition Platform_eqb (a b : Platform) : bool :=
  match a, b with
  | web, web | ios, ios | android, android | windows, windows
  | macos, macos | linux, linux | physical, physical
  | browser_extension, browser_extension | api, api => true
  | _, _ => false
  end.

Definition DIFFICULTY_LEVELS : list DifficultyLevel :=
  [beginner; intermediate; advanced; all_levels].

Definition PRICE_TYPES : list PriceType :=
  [free; freemium; paid; subscription].

Definition PLATFORMS : list Platform :=
  [web; ios; android; windows; macos; linux; physical; browser_extension; api].

Definition CATEGORY_IDS : list CategoryId :=
  [apps; websites; textbooks; youtube; podcasts; games; jlpt; reading;
   listening; speaking; writing; grammar; vocabulary; kanji; immersion;
   community].

Definition SubcategoryId : Type := JsString.t.

(** [interface Resource] *)
Module Resource.
Record t : Type := mk {
  id : JsString.t;
  name : JsString.t;
  nameJa : option JsString.t;
  description : JsString.t;
  descriptionLong : option JsString.t;
  category : CategoryId;
  subcategory : SubcategoryId;
  tags : list JsString.t;
  difficulty : DifficultyLevel;
  priceType : PriceType;
  priceDetails : option JsString.t;
  platforms : list Platform;
  url : JsString.t;
  imageUrl : option JsString.t;
  rating : option JsNumber;
  featured : option bool;
  notes : option JsString.t;
  lastUpdated : option JsString.t
}.
End Resource.

(** [interface ActiveFilters] *)
Module ActiveFilters.
Record t : Type := mk {
  difficulty : list DifficultyLevel;
  priceType : list PriceType;
  platforms : list Platform;
  search : JsString.t
}.
End ActiveFilters.

(* ================================================================== *)
(** ** Predicate filters and the combinator  ([lib/filters.ts]) *)
(* ================================================================== *)

Definition filterByCategory (resources : list Resource.t)
    (category : JsString.t) : list Resource.t :=
  filter (fun resource =>
            JsString.eqb (CategoryId_name (Resource.category resource)) category)
         resources.

Definition filterBySubcategory (resources : list Resource.t)
    (subcategory : SubcategoryId) : list Resource.t :=
  filter (fun resource =>
            JsString.eqb (Resource.subcategory resource) subcategory)
         resources.

Definition filterByCategoryAndSubcategory (resources : list Resource.t)
    (category : JsString.t) (subcategory : SubcategoryId) : list Resource.t :=
  filter (fun resource =>
            JsString.eqb (CategoryId_name (Resource.category resource)) category
            && JsString.eqb (Resource.subcategory resource) subcategory)
         resources.

Definition filterByDifficulty (resources : list Resource.t)
    (difficulties : list DifficultyLevel) : list Resource.t :=
  match difficulties with
  | [] => resources
  | _ :: _ =>
      filter (fun resource =>
                existsb (DifficultyLevel_eqb (Resource.difficulty resource))
                        difficulties)
             resources
  end.

Definition filterByPriceType (resources : list Resource.t)
    (priceTypes : list PriceType) : list Resource.t :=
  match priceTypes with
  | [] => resources
  | _ :: _ =>
      filter (fun resource =>
                existsb (PriceType_eqb (Resource.priceType resource)) priceTypes)
             resources
  end.

Definition filterByPlatform (resources : list Resource.t)
    (platforms : list Platform) : list Resource.t :=
  match platforms with
  | [] => resources
  | _ :: _ =>
      filter (fun resource =>
                existsb (fun platform => existsb (Platform_eqb platform) platforms)
                        (Resource.platforms resource))
             resources
  end.

Definition combineFilters (resources : list Resource.t)
    (filters : ActiveFilters.t) : list Resource.t :=
  let result := resources in
  let result :=
    if 0 <? length (ActiveFilters.difficulty filters)
    then filterByDifficulty result (ActiveFilters.difficulty filters)
    else result in
  let result :=
    if 0 <? length (ActiveFilters.priceType filters)
    then filterByPriceType result (ActiveFilters.priceType filters)
    else result in
  let result :=
    if 0 <? length (ActiveFilters.platforms filters)
    then filterByPlatform result (ActiveFilters.platforms filters)
    else result in
  result.

Definition createEmptyFilters : ActiveFilters.t :=
  ActiveFilters.mk [] [] [] [].

(** The three non-search dimensions, and the filter each one applies. *)
Inductive Dimension : Type := ByDifficulty | ByPriceType | ByPlatform.

Definition applyDimension (filters : ActiveFilters.t)
    (resources : list Resource.t) (d : Dimension) : list Resource.t :=
  match d with
  | ByDifficulty => filterByDifficulty resources (ActiveFilters.difficulty filters)
  | ByPriceType => filterByPriceType resources (ActiveFilters.priceType filters)
  | ByPlatform => filterByPlatform resources (ActiveFilters.platforms filters)
  end.

(** The filters of [order], applied one after the other. *)
Definition applyInOrder (order : list Dimension) (filters : ActiveFilters.t)
    (resources : list Resource.t) : list Resource.t :=
  fold_left (applyDimension filters) order resources.

(** What it means for a record to satisfy one dimension of the active
    filters. *)
Definition satisfiesDifficulty (f : ActiveFilters.t) (r : Resource.t) : Prop :=
  In (Resource.difficulty r) (ActiveFilters.difficulty f).

Definition satisfiesPriceType (f : ActiveFilters.t) (r : Resource.t) : Prop :=
  In (Resource.priceType r) (ActiveFilters.priceType f).

Definition satisfiesPlatform (f : ActiveFilters.t) (r : Resource.t) : Prop :=
  exists p, In p (Resource.platforms r) /\ In p (ActiveFilters.platforms f).

(* ================================================================== *)
(** ** Search matcher  ([lib/search.ts]) *)
(* ================================================================== *)

(** Truthiness of an optional string field: present and not empty. *)
Definition truthy (field : option JsString.t) : bool :=
  match field with
  | Some (_ :: _) => true
  | _ => false
  end.

(** The string of an optional field that has been tested truthy. *)
Definition textOf (field : option JsString.t) : JsString.t :=
  match field with
  | Some s => s
  | None => []
  end.

Definition searchResources (resources : list Resource.t)
    (query : JsString.t) : list Resource.t :=
  let trimmedQuery := JsString.toLowerCase (JsString.trim query) in
  if length trimmedQuery =? 0 then resources
  else
    filter (fun resource =>
      if JsString.includes (JsString.toLowerCase (Resource.name resource))
                           trimmedQuery
      then true
      else if truthy (Resource.nameJa resource)
              && JsString.includes
                   (JsString.toLowerCase (textOf (Resource.nameJa resource)))
                   trimmedQuery
      then true
      else if JsString.includes
                (JsString.toLowerCase (Resource.description resource))
                trimmedQuery
      then true
      else if truthy (Resource.descriptionLong resource)
              && JsString.includes
                   (JsString.toLowerCase
                      (textOf (Resource.descriptionLong resource)))
                   trimmedQuery
      then true
      else if existsb (fun tag =>
                         JsString.includes (JsString.toLowerCase tag) trimmedQuery)
                      (Resource.tags resource)
      then true
      else false) resources.

Definition resourceMatchesQuery (resource : Resource.t)
    (query : JsString.t) : bool :=
  let trimmedQuery := JsString.toLowerCase (JsString.trim query) in
  if length trimmedQuery =? 0 then true
  else if JsString.includes (JsString.toLowerCase (Resource.name resource))
                            trimmedQuery
  then true
  else if truthy (Resource.nameJa resource)
          && JsString.includes
               (JsString.toLowerCase (textOf (Resource.nameJa resource)))
               trimmedQuery
  then true
  else if JsString.includes
            (JsString.toLowerCase (Resource.description resource))
            trimmedQuery
  then true
  else if truthy (Resource.descriptionLong resource)
          && JsString.includes
               (JsString.toLowerCase
                  (textOf (Resource.descriptionLong resource)))
               trimmedQuery
  then true
  else if existsb (fun tag =>
                     JsString.includes (JsString.toLowerCase tag) trimmedQuery)
                  (Resource.tags resource)
  then true
  else false.


(** The ids of a list of records. *)
Definition ids (resources : list Resource.t) : list JsString.t :=
  map Resource.id resources.

(** Two lists hold the same set of ids. *)
Definition sameIdSet (a b : list Resource.t) : Prop :=
  forall i, In i (ids a) <-> In i (ids b).

(* ================================================================== *)
(** ** Count aggregator  ([lib/counts.ts]) *)
(* ================================================================== *)

(** A JavaScript [Map] from strings to numbers: its entries in insertion
    order, each key once. *)
Definition CountMap : Type := list (JsString.t * nat).

(** [map.get(key) || 0] *)
Fixpoint Map_getOrZero (m : CountMap) (key : JsString.t) : nat :=
  match m with
  | [] => 0
  | (k, n) :: m' => if JsString.eqb key k then n else Map_getOrZero m' key
  end.

(** [map.set(key, value)]: an existing entry keeps its place. *)
Fixpoint Map_set (m : CountMap) (key : JsString.t) (value : nat) : CountMap :=
  match m with
  | [] => [(key, value)]
  | (k, n) :: m' =>
      if JsString.eqb key k then (k, value) :: m'
      else (k, n) :: Map_set m' key value
  end.

(** [map.values()] *)
Definition Map_values (m : CountMap) : list nat := map snd m.

Definition sum (values : list nat) : nat := fold_right Nat.add 0 values.

(** One step of counting: the entry of [key] goes up by one. *)
Definition increment (counts : CountMap) (key : JsString.t) : CountMap :=
  Map_set counts key (Map_getOrZero counts key + 1).

(** Modelled from the spec: [lib/counts.ts] is missing from the sources
    (only its property tests are there).  [getCategoryResourceCounts] is the
    mapping from category id to the count of records with that category; a
    category gets an entry when a record has it, so the empty record list
    gives the empty map. *)
Definition getCategoryResourceCounts (resources : list Resource.t) : CountMap :=
  fold_left (fun counts resource =>
               increment counts (CategoryId_name (Resource.category resource)))
            resources [].

(** Modelled from the spec: [lib/counts.ts] is missing from the sources.
    [getResourceCountForCategory] is the category's own count, the number of
    records whose category is [categoryId]. *)
Definition getResourceCountForCategory (resources : list Resource.t)
    (categoryId : JsString.t) : nat :=
  length (filterByCategory resources categoryId).

(** Modelled from the spec: [lib/counts.ts] is missing from the sources.
    [getSubcategoryResourceCounts] is the same mapping scoped to one
    category: from subcategory id to the count of the records of
    [categoryId] with that subcategory. *)
Definition getSubcategoryResourceCounts (resources : list Resource.t)
    (categoryId : JsString.t) : CountMap :=
  fold_left (fun counts resource =>
               if JsString.eqb (CategoryId_name (Resource.category resource))
                               categoryId
               then increment counts (Resource.subcategory resource)
               else counts)
            resources [].

(* ================================================================== *)
(** ** Schema validation  ([lib/validateResource.ts]) *)
(* ================================================================== *)

Definition REQUIRED_RESOURCE_FIELDS : list JsString.t :=
  [ js "id"; js "name"; js "description"; js "category"; js "subcategory";
    js "tags"; js "difficulty"; js "priceType"; js "platforms"; js "url" ].

Record InvalidField : Type := mkInvalidField {
  field : JsString.t;
  reason : JsString.t
}.

(** [interface ResourceValidationResult] *)
Record ResourceValidationResult : Type := mkResult {
  success : bool;
  missingFields : list JsString.t;
  invalidFields : list InvalidField
}.

Definition isNonEmptyString (value : JsValue) : bool :=
  match value with
  | VString s => 0 <? length (JsString.trim s)
  | _ => false
  end.

Definition isNonEmptyArray (value : JsValue) : bool :=
  match value with
  | VArray l => 0 <? length l
  | _ => false
  end.

(** The two arrays [validateResource] pushes to. *)
Definition Findings : Type := (list JsString.t * list InvalidField)%type.

Definition pushMissing (st : Findings) (f : JsString.t) : Findings :=
  (fst st ++ [f], snd st).

Definition pushInvalid (st : Findings) (f r : JsString.t) : Findings :=
  (fst st, snd st ++ [mkInvalidField f r]).

(** The string carried by a value already tested to be a string. *)
Definition asString (v : JsValue) : JsString.t :=
  match v with VString s => s | _ => [] end.

Definition asArray (v : JsValue) : list JsValue :=
  match v with VArray l => l | _ => [] end.

Section Validation.

Variable Number_toString : JsNumber -> JsString.t.

(** The loop over the required string fields. *)
Definition checkStringFields (obj : JsValue) (st : Findings) : Findings :=
  let stringFields :=
    [js "id"; js "name"; js "description"; js "subcategory"; js "url"] in
  fold_left (fun st field =>
               if negb (isNonEmptyString (getProp obj field))
               then pushMissing st field else st)
            stringFields st.

(** The check written out three times, for [category], [difficulty] and
    [priceType]: missing unless a non-empty string, invalid unless one of
    the [allowed] names. *)
Definition checkEnumerated (obj : JsValue) (key : JsString.t)
    (allowed : list JsString.t) (st : Findings) : Findings :=
  if negb (isNonEmptyString (getProp obj key)) then pushMissing st key
  else if negb (includesString allowed (asString (getProp obj key))) then
    pushInvalid st key
      (js "Invalid " ++ key ++ js ": " ++ asString (getProp obj key)
       ++ js ". Must be one of: " ++ JsString.join (js ", ") allowed)
  else st.

Definition checkTags (obj : JsValue) (st : Findings) : Findings :=
  if negb (isNonEmptyArray (getProp obj (js "tags")))
  then pushMissing st (js "tags")
  else
    let invalidTags :=
      filter (fun tag =>
                negb (isTypeOf tag TString)
                || (length (JsString.trim (asString tag)) =? 0))
             (asArray (getProp obj (js "tags"))) in
    if 0 <? length invalidTags
    then pushInvalid st (js "tags") (js "All tags must be non-empty strings")
    else st.

Definition checkPlatforms (obj : JsValue) (st : Findings)
  : Completion Findings :=
  if negb (isNonEmptyArray (getProp obj (js "platforms")))
  then Normal (pushMissing st (js "platforms"))
  else
    let platforms := asArray (getProp obj (js "platforms")) in
    let invalidPlatforms :=
      filter (fun p =>
                negb (isTypeOf p TString)
                || negb (includesString (map Platform_name PLATFORMS)
                                        (asString p)))
             platforms in
    if 0 <? length invalidPlatforms then
      listed <- Array_join Number_toString (js ", ") invalidPlatforms ;;
      Normal (pushInvalid st (js "platforms")
                (js "Invalid platforms: " ++ listed
                 ++ js ". Must be one of: "
                 ++ JsString.join (js ", ") (map Platform_name PLATFORMS)))
    else Normal st.

Definition checkRating (obj : JsValue) (st : Findings) : Findings :=
  if negb (isUndefined (getProp obj (js "rating"))) then
    let rating := getProp obj (js "rating") in
    if negb (isTypeOf rating TNumber)
       || match rating with
          | VNumber x => SFltb x one || SFltb five x
          | _ => false
          end
    then pushInvalid st (js "rating")
                     (js "Rating must be a number between 1 and 5")
    else st
  else st.

Definition checkFeatured (obj : JsValue) (st : Findings) : Findings :=
  if negb (isUndefined (getProp obj (js "featured")))
     && negb (isTypeOf (getProp obj (js "featured")) TBoolean)
  then pushInvalid st (js "featured") (js "Featured must be a boolean")
  else st.

Definition validateResource (resource : JsValue)
  : Completion ResourceValidationResult :=
  if isNull resource || isUndefined resource
     || negb (isTypeOf resource TObject)
  then Normal (mkResult false REQUIRED_RESOURCE_FIELDS [])
  else
    let obj := resource in
    let st : Findings := ([], []) in
    let st := checkStringFields obj st in
    let st := checkEnumerated obj (js "category")
                (map CategoryId_name CATEGORY_IDS) st in
    let st := checkEnumerated obj (js "difficulty")
                (map DifficultyLevel_name DIFFICULTY_LEVELS) st in
    let st := checkEnumerated obj (js "priceType")
                (map PriceType_name PRICE_TYPES) st in
    let st := checkTags obj st in
    st <- checkPlatforms obj st ;;
    let st := checkRating obj st in
    let st := checkFeatured obj st in
    Normal (mkResult ((length (fst st) =? 0) && (length (snd st) =? 0))
                     (fst st) (snd st)).

End Validation.

(** The names reported in [invalidFields]. *)
Definition invalidNames (r : ResourceValidationResult) : list JsString.t :=
  map field (invalidFields r).

(** [{ ...obj, [key]: value }]: the property is replaced where it stands, or
    added at the end. *)
Fixpoint setProp (ps : list (JsString.t * JsValue)) (key : JsString.t)
    (value : JsValue) : list (JsString.t * JsValue) :=
  match ps with
  | [] => [(key, value)]
  | (k, v) :: ps' =>
      if JsString.eqb key k then (k, value) :: ps'
      else (k, v) :: setProp ps' key value
  end.

(* ================================================================== *)
(** ** Stroke serializer  ([Calligraphy/services/strokeSerializer.ts]) *)
(* ================================================================== *)

(** [interface Point] *)
Module Point.
Record t : Type := mk {
  x : JsNumber;
  y : JsNumber;
  timestamp : JsNumber
}.
End Point.

(** [interface StrokeData] *)
Module StrokeData.
Record t : Type := mk {
  id : JsString.t;
  points : list Point.t;
  startTime : JsNumber;
  endTime : JsNumber;
  pressure : option (list JsNumber)
}.
End StrokeData.

(** The object a [Point] is at run time. *)
Definition Point_toJs (p : Point.t) : JsValue :=
  VObject [ (js "x", VNumber (Point.x p));
            (js "y", VNumber (Point.y p));
            (js "timestamp", VNumber (Point.timestamp p)) ].

(** The object a [StrokeData] is at run time; an absent [pressure] is no
    property at all. *)
Definition StrokeData_toJs (s : StrokeData.t) : JsValue :=
  VObject ([ (js "id", VString (StrokeData.id s));
             (js "points", VArray (map Point_toJs (StrokeData.points s)));
             (js "startTime", VNumber (StrokeData.startTime s));
             (js "endTime", VNumber (StrokeData.endTime s)) ]
           ++ match StrokeData.pressure s with
              | Some ps => [ (js "pressure", VArray (map VNumber ps)) ]
              | None => []
              end).

(** *** The JSON built-ins *)

(** A JSON document.  The number of a numeric literal is the binary64 value
    the literal denotes. *)
Inductive Json : Type :=
| JNull
| JBool (b : bool)
| JNumber (x : JsNumber)
| JString (s : JsString.t)
| JArray (elements : list Json)
| JObject (members : list (JsString.t * Json)).

(** A string handed to [JSON.parse] either is the text of a JSON document
    or is not.  A well-formed text is represented by the document it
    spells: white space, escapes and the spelling of numbers are not
    followed. *)
Inductive JsonText : Type :=
| WellFormed (document : Json)
| Malformed (text : JsString.t).

(** [Number::toString] gives "0" for both zeros. *)
Definition dropZeroSign (x : JsNumber) : JsNumber :=
  match x with
  | S754_zero _ => S754_zero false
  | _ => x
  end.

(** The abstract operation SerializeJSONProperty: [None] where
    [JSON.stringify] gives [undefined].  A number that is not finite is
    written [null]; in an array a value without a JSON text is written
    [null]; in an object its property is left out. *)
Fixpoint SerializeJSONProperty (v : JsValue) : option Json :=
  match v with
  | VUndefined => None
  | VSymbol => None
  | VNull => Some JNull
  | VBoolean b => Some (JBool b)
  | VNumber x => Some (if isFinite x then JNumber (dropZeroSign x) else JNull)
  | VString s => Some (JString s)
  | VArray l =>
      Some (JArray (map (fun e => match SerializeJSONProperty e with
                                  | Some j => j
                                  | None => JNull
                                  end) l))
  | VObject ps =>
      Some (JObject (flat_map (fun kv => match SerializeJSONProperty (snd kv) with
                                         | Some j => [(fst kv, j)]
                                         | None => []
                                         end) ps))
  end.

(** [JSON.stringify(elements)] for an array. *)
Definition JSON_stringify_array (elements : list JsValue) : JsonText :=
  WellFormed
    (JArray (map (fun e => match SerializeJSONProperty e with
                           | Some j => j
                           | None => JNull
                           end) elements)).

(** The value a JSON document parses to.  A member name that occurs again
    overwrites the earlier value. *)
Fixpoint fromJson (j : Json) : JsValue :=
  match j with
  | JNull => VNull
  | JBool b => VBoolean b
  | JNumber x => VNumber x
  | JString s => VString s
  | JArray l => VArray (map fromJson l)
  | JObject ms =>
      VObject (fold_left (fun ps kv => setProp ps (fst kv) (snd kv))
                         (map (fun kv => (fst kv, fromJson (snd kv))) ms) [])
  end.

(** [JSON.parse(text)] *)
Definition JSON_parse (text : JsonText) : Completion JsValue :=
  match text with
  | WellFormed document => Normal (fromJson document)
  | Malformed _ => Throw SyntaxError
  end.

(** *** The serializer *)

Definition isValidPoint (point : JsValue) : bool :=
  if negb (isTypeOf point TObject) || isNull point then false
  else
    let p := point in
    isTypeOf (getProp p (js "x")) TNumber
    && isTypeOf (getProp p (js "y")) TNumber
    && isTypeOf (getProp p (js "timestamp")) TNumber
    && negb (Number_isNaN (getProp p (js "x")))
    && negb (Number_isNaN (getProp p (js "y")))
    && negb (Number_isNaN (getProp p (js "timestamp"))).

Definition isValidStrokeData (stroke : JsValue) : bool :=
  if negb (isTypeOf stroke TObject) || isNull stroke then false
  else
    let s := stroke in
    if negb (isTypeOf (getProp s (js "id")) TString) then false
    else if negb (isTypeOf (getProp s (js "startTime")) TNumber)
            || Number_isNaN (getProp s (js "startTime")) then false
    else if negb (isTypeOf (getProp s (js "endTime")) TNumber)
            || Number_isNaN (getProp s (js "endTime")) then false
    else if negb (Array_isArray (getProp s (js "points"))) then false
    else if negb (forallb isValidPoint (asArray (getProp s (js "points"))))
    then false
    else if negb (isUndefined (getProp s (js "pressure"))) then
      if negb (Array_isArray (getProp s (js "pressure"))) then false
      else if negb (forallb (fun p => isTypeOf p TNumber && negb (Number_isNaN p))
                            (asArray (getProp s (js "pressure"))))
      then false
      else true
    else true.

Definition serialize (strokes : list StrokeData.t) : JsonText :=
  JSON_stringify_array (map StrokeData_toJs strokes).

(** The loop of [deserialize] from index [i] on. *)
Fixpoint checkStrokes (i : nat) (rest : list JsValue) : Completion unit :=
  match rest with
  | [] => Normal tt
  | stroke :: rest' =>
      if negb (isValidStrokeData stroke)
      then Throw (Error (js "Invalid stroke data at index " ++ JsString.ofIndex i))
      else checkStrokes (S i) rest'
  end.

Definition deserialize (json : JsonText) : Completion (list JsValue) :=
  parsed <- JSON_parse json ;;
  match parsed with
  | VArray elements =>
      _ <- checkStrokes 0 elements ;;
      Normal elements
  | _ => Throw (Error (js "Invalid stroke data: expected an array"))
  end.

(** Structural validity in the words of the specification. *)
Definition isNumeric (v : JsValue) : Prop :=
  exists x, v = VNumber x /\ isNaN x = false.

Definition WellShapedPoint (p : JsValue) : Prop :=
  isNumeric (getProp p (js "x"))
  /\ isNumeric (getProp p (js "y"))
  /\ isNumeric (getProp p (js "timestamp")).

Definition WellShapedStroke (s : JsValue) : Prop :=
  (exists i, getProp s (js "id") = VString i)
  /\ isNumeric (getProp s (js "startTime"))
  /\ isNumeric (getProp s (js "endTime"))
  /\ (exists pts, getProp s (js "points") = VArray pts
                  /\ Forall WellShapedPoint pts)
  /\ (getProp s (js "pressure") = VUndefined
      \/ exists ps, getProp s (js "pressure") = VArray ps
                    /\ Forall isNumeric ps).

(** The numbers of a typed stroke. *)
Definition numbersOf (s : StrokeData.t) : list JsNumber :=
  StrokeData.startTime s :: StrokeData.endTime s
  :: flat_map (fun p => [Point.x p; Point.y p; Point.timestamp p])
              (StrokeData.points s)
  ++ match StrokeData.pressure s with Some ps => ps | None => [] end.

(** A valid stroke as the specification describes it: a string id (by
    type) and no NaN among its numbers. *)
Definition validStroke (s : StrokeData.t) : Prop :=
  Forall (fun x => isNaN x = false) (numbersOf s).

Definition finiteStroke (s : StrokeData.t) : Prop :=
  Forall (fun x => isFinite x = true) (numbersOf s).

Definition noNegativeZero (s : StrokeData.t) : Prop :=
  Forall (fun x => x <> negZero) (numbersOf s).

Definition finitePoint (p : Point.t) : Prop :=
  isFinite (Point.x p) = true /\ isFinite (Point.y p) = true
  /\ isFinite (Point.timestamp p) = true.

Definition dropZeroSignsPoint (p : Point.t) : Point.t :=
  Point.mk (dropZeroSign (Point.x p)) (dropZeroSign (Point.y p))
           (dropZeroSign (Point.timestamp p)).

(** The stroke with the sign of every zero dropped. *)
Definition dropZeroSigns (s : StrokeData.t) : StrokeData.t :=
  StrokeData.mk
    (StrokeData.id s)
    (map dropZeroSignsPoint (StrokeData.points s))
    (dropZeroSign (StrokeData.startTime s))
    (dropZeroSign (StrokeData.endTime s))
    (option_map (map dropZeroSign) (StrokeData.pressure s)).

(* ================================================================== *)
(** ** Vocabulary of the statements *)
(* ================================================================== *)

(** [output] is [input] with some elements left out: what stays keeps its
    place relative to the rest, and nothing is added or repeated. *)
Inductive Subsequence {A : Type} : list A -> list A -> Prop :=
| Subsequence_nil : Subsequence [] []
| Subsequence_keep : forall a output input,
    Subsequence output input -> Subsequence (a :: output) (a :: input)
| Subsequence_drop : forall a output input,
    Subsequence output input -> Subsequence output (a :: input).

(** [output] is exactly the elements of [input] that satisfy [P], each as
    often and in the order it stands in [input]. *)
Definition keepsExactly {A : Type} (P : A -> Prop) (input output : list A)
  : Prop :=
  exists p : A -> bool,
    (forall a, p a = true <-> P a) /\ output = filter p input.

(** Each selector filter is one [filter], by a predicate that holds
    everywhere when the selector set is empty. *)
Definition difficultyTest (sel : list DifficultyLevel) (r : Resource.t) : bool :=
  match sel with
  | [] => true
  | _ => existsb (DifficultyLevel_eqb (Resource.difficulty r)) sel
  end.

Definition priceTypeTest (sel : list PriceType) (r : Resource.t) : bool :=
  match sel with
  | [] => true
  | _ => existsb (PriceType_eqb (Resource.priceType r)) sel
  end.

Definition platformTest (sel : list Platform) (r : Resource.t) : bool :=
  match sel with
  | [] => true
  | _ => existsb (fun p => existsb (Platform_eqb p) sel) (Resource.platforms r)
  end.

Definition dimensionTest (f : ActiveFilters.t) (d : Dimension)
    (r : Resource.t) : bool :=
  match d with
  | ByDifficulty => difficultyTest (ActiveFilters.difficulty f) r
  | ByPriceType => priceTypeTest (ActiveFilters.priceType f) r
  | ByPlatform => platformTest (ActiveFilters.platforms f) r
  end.


(** The end-to-end scenario of the specification: two records of category
    [apps]. *)
Definition recordA : Resource.t :=
  Resource.mk (js "a") (js "Anki") None (js "Flashcards") None apps
    (js "flashcards") [js "srs"] beginner free None [web]
    (js "https://apps.example/a") None None None None None.

Definition recordB : Resource.t :=
  Resource.mk (js "b") (js "Bunpro") None (js "Grammar drills") None apps
    (js "grammar") [js "grammar"] advanced paid None [ios]
    (js "https://apps.example/b") None None None None None.

Definition beginnerOnly : ActiveFilters.t :=
  ActiveFilters.mk [beginner] [] [] [].


(** A record whose name has a sharp s, and the query that is a sharp s. *)
Definition recordStrasse : Resource.t :=
  Resource.mk (js "strasse") [83; 116; 114; 97; 223; 101]%N None
    (js "Street names") None reading (js "general") [js "signs"]
    beginner free None [web] (js "https://reading.example/s")
    None None None None None.

Definition sharpS : JsString.t := [223%N].

(** The case mapping of one Basic Latin code unit. *)
Definition lowerLatin (c : N) : N :=
  if (65 <=? c)%N && (c <=? 90)%N then (c + 32)%N else c.



(** The empty string and the strings of white space only. *)
Definition isBlank (q : JsString.t) : Prop :=
  Forall (fun c => JsString.isWhiteSpace c = true) q.


(** Sample strokes: one with finite numbers, one that starts at
    [Infinity]. *)
Definition half : JsNumber := S754_finite false 4503599627370496 (-53).

Definition strokeSample : StrokeData.t :=
  StrokeData.mk (js "s1")
    [Point.mk one five posZero; Point.mk half one one]
    posZero five (Some [half; one]).

Definition strokeInfinity : StrokeData.t :=
  StrokeData.mk (js "s2") [] Infinity posZero None.

(** The text of [[{"id":"s1","points":[],"startTime":0,"endTime":5}, 7]]. *)
Definition textWithBadElement : JsonText :=
  WellFormed
    (JArray [ JObject [ (js "id", JString (js "s1"));
                        (js "points", JArray []);
                        (js "startTime", JNumber posZero);
                        (js "endTime", JNumber five) ];
              JNumber (S754_finite false 7881299347898368 (-50)) ]).





(** A record that passes validation. *)
Definition validRecord : list (JsString.t * JsValue) :=
  [ (js "id", VString (js "a"));
    (js "name", VString (js "Anki"));
    (js "description", VString (js "Flashcards"));
    (js "category", VString (js "apps"));
    (js "subcategory", VString (js "flashcards"));
    (js "tags", VArray [VString (js "srs")]);
    (js "difficulty", VString (js "beginner"));
    (js "priceType", VString (js "free"));
    (js "platforms", VArray [VString (js "web")]);
    (js "url", VString (js "https://apps.example/a")) ].

(** A stand-in for [Number::toString] in runs that print no number. *)
Definition noNumberText : JsNumber -> JsString.t := fun _ => [].

(** Every check only adds to the two arrays: its effect on any state is its
    effect on the empty state, appended. *)
Definition appended (st d : Findings) : Findings :=
  (fst st ++ fst d, snd st ++ snd d).


(* ================================================================== *)
(** ** More of [lib/filters.ts], [lib/search.ts], [types] and
       [lib/validateResource.ts] *)
(* ================================================================== *)

(** [hasActiveFilters] of [lib/filters.ts] *)
Definition hasActiveFilters (filters : ActiveFilters.t) : bool :=
  (0 <? length (ActiveFilters.difficulty filters))
  || (0 <? length (ActiveFilters.priceType filters))
  || (0 <? length (ActiveFilters.platforms filters))
  || (0 <? length (JsString.trim (ActiveFilters.search filters))).

(** The object [getSearchMatchLocations] returns. *)
Module MatchLocations.
Record t : Type := mk {
  name : bool;
  nameJa : bool;
  description : bool;
  descriptionLong : bool;
  tags : list JsString.t
}.
End MatchLocations.

Definition getSearchMatchLocations (resource : Resource.t)
    (query : JsString.t) : MatchLocations.t :=
  let trimmedQuery := JsString.toLowerCase (JsString.trim query) in
  if length trimmedQuery =? 0
  then MatchLocations.mk false false false false []
  else
    MatchLocations.mk
      (JsString.includes (JsString.toLowerCase (Resource.name resource))
                         trimmedQuery)
      (if truthy (Resource.nameJa resource)
       then JsString.includes
              (JsString.toLowerCase (textOf (Resource.nameJa resource)))
              trimmedQuery
       else false)
      (JsString.includes (JsString.toLowerCase (Resource.description resource))
                         trimmedQuery)
      (if truthy (Resource.descriptionLong resource)
       then JsString.includes
              (JsString.toLowerCase
                 (textOf (Resource.descriptionLong resource)))
              trimmedQuery
       else false)
      (filter (fun tag =>
                 JsString.includes (JsString.toLowerCase tag) trimmedQuery)
              (Resource.tags resource)).

(** The type guards of [types]. *)
Definition isValidDifficulty (value : JsValue) : bool :=
  isTypeOf value TString
  && includesString (map DifficultyLevel_name DIFFICULTY_LEVELS)
                    (asString value).

Definition isValidPriceType (value : JsValue) : bool :=
  isTypeOf value TString
  && includesString (map PriceType_name PRICE_TYPES) (asString value).

Definition isValidPlatform (value : JsValue) : bool :=
  isTypeOf value TString
  && includesString (map Platform_name PLATFORMS) (asString value).

Definition isValidCategoryId (value : JsValue) : bool :=
  isTypeOf value TString
  && includesString (map CategoryId_name CATEGORY_IDS) (asString value).

(** One entry of the [results] of [validateResources]. *)
Record ValidationEntry : Type := mkEntry {
  index : nat;
  result : ResourceValidationResult
}.

(** What [validateResources] returns. *)
Record ValidationReport : Type := mkReport {
  valid : bool;
  results : list ValidationEntry
}.

(** [xs.map((x, index) => f(x, index))] with indices counted from [i]. *)
Fixpoint mapWithIndex {A B : Type} (f : A -> nat -> B) (i : nat) (xs : list A)
  : list B :=
  match xs with
  | [] => []
  | x :: xs' => f x i :: mapWithIndex f (S i) xs'
  end.

Section ValidateMany.

Variable Number_toString : JsNumber -> JsString.t.

(** [validateResources]: the callback of [map] can throw, and then the whole
    call throws. *)
Definition validateResources (resources : list JsValue)
  : Completion ValidationReport :=
  results <- sequence
               (mapWithIndex
                  (fun resource index =>
                     r <- validateResource Number_toString resource ;;
                     Normal (mkEntry index r))
                  0 resources) ;;
  let valid := forallb (fun r => success (result r)) results in
  Normal (mkReport valid
                   (filter (fun r => negb (success (result r))) results)).

End ValidateMany.

(** A record as [validateResource] wants it, said of the object itself. *)
Definition nonBlankString (v : JsValue) : Prop :=
  exists s, v = VString s /\ JsString.trim s <> [].

Definition oneOf (names : list JsString.t) (v : JsValue) : Prop :=
  exists s, v = VString s /\ JsString.trim s <> [] /\ In s names.

Definition WellFormedResource (obj : JsValue) : Prop :=
  (forall f, In f [js "id"; js "name"; js "description"; js "subcategory";
                   js "url"] -> nonBlankString (getProp obj f))
  /\ oneOf (map CategoryId_name CATEGORY_IDS) (getProp obj (js "category"))
  /\ oneOf (map DifficultyLevel_name DIFFICULTY_LEVELS)
           (getProp obj (js "difficulty"))
  /\ oneOf (map PriceType_name PRICE_TYPES) (getProp obj (js "priceType"))
  /\ (exists tags, getProp obj (js "tags") = VArray tags /\ tags <> []
                   /\ Forall nonBlankString tags)
  /\ (exists ps, getProp obj (js "platforms") = VArray ps /\ ps <> []
                 /\ Forall (fun p => exists s,
                                p = VString s
                                /\ In s (map Platform_name PLATFORMS)) ps)
  /\ (getProp obj (js "rating") = VUndefined
      \/ exists x, getProp obj (js "rating") = VNumber x
                   /\ SFltb x one = false /\ SFltb five x = false)
  /\ (getProp obj (js "featured") = VUndefined
      \/ exists b, getProp obj (js "featured") = VBoolean b).

(** The field names [invalidFields] can hold. *)
Definition checkedFields : list JsString.t :=
  [ js "category"; js "difficulty"; js "priceType"; js "tags";
    js "platforms"; js "rating"; js "featured" ].

(* ================================================================== *)
(** ** The resources page  ([app/[locale]/resources/ResourcesPageClient.tsx]) *)
(* ================================================================== *)

(** The memo [filteredResources]. *)
Definition filteredResources (initialResources : list Resource.t)
    (filters : ActiveFilters.t) : list Resource.t :=
  let result := initialResources in
  let result :=
    if 0 <? length (JsString.trim (ActiveFilters.search filters))
    then searchResources result (ActiveFilters.search filters)
    else result in
  let result := combineFilters result filters in
  result.

(** [interface FilterOption<T>] *)
Record FilterOption (T : Type) : Type := mkOption {
  value : T;
  count : nat
}.

(** The three lists of the memo [availableFilters]. *)
Definition availableDifficulties (initialResources : list Resource.t)
  : list (FilterOption DifficultyLevel) :=
  map (fun level =>
         mkOption level
           (length (filter (fun r => DifficultyLevel_eqb (Resource.difficulty r)
                                                         level)
                           initialResources)))
      DIFFICULTY_LEVELS.

Definition availablePriceTypes (initialResources : list Resource.t)
  : list (FilterOption PriceType) :=
  map (fun type =>
         mkOption type
           (length (filter (fun r => PriceType_eqb (Resource.priceType r) type)
                           initialResources)))
      PRICE_TYPES.

Definition availablePlatforms (initialResources : list Resource.t)
  : list (FilterOption Platform) :=
  map (fun platform =>
         mkOption platform
           (length (filter (fun r => existsb (Platform_eqb platform)
                                             (Resource.platforms r))
                           initialResources)))
      PLATFORMS.

(** [===] on category ids, which are strings at run time. *)
Definition CategoryId_eqb (a b : CategoryId) : bool :=
  JsString.eqb (CategoryId_name a) (CategoryId_name b).

(** The memo [relatedResources]. *)
Definition relatedResources (selectedResource : option Resource.t)
    (initialResources : list Resource.t) : list Resource.t :=
  match selectedResource with
  | None => []
  | Some selected =>
      firstn 4
        (filter (fun r =>
                   negb (JsString.eqb (Resource.id r) (Resource.id selected))
                   && (CategoryId_eqb (Resource.category r)
                                      (Resource.category selected)
                       || existsb (fun tag =>
                                     includesString (Resource.tags selected) tag)
                                  (Resource.tags r)))
                initialResources)
  end.


(** The counts of a list of options. *)
Definition optionCounts {T : Type} (options : list (FilterOption T)) : list nat :=
  map (@count T) options.


(** What [JSON.parse] reads back for a number that [JSON.stringify] wrote:
    the number without the sign of zero, or [null] for a number that is not
    finite. *)
Definition readBack (x : JsNumber) : JsValue :=
  if isFinite x then VNumber (dropZeroSign x) else VNull.

Definition Point_readBack (p : Point.t) : JsValue :=
  VObject [ (js "x", readBack (Point.x p));
            (js "y", readBack (Point.y p));
            (js "timestamp", readBack (Point.timestamp p)) ].

Definition StrokeData_readBack (s : StrokeData.t) : JsValue :=
  VObject ([ (js "id", VString (StrokeData.id s));
             (js "points", VArray (map Point_readBack (StrokeData.points s)));
             (js "startTime", readBack (StrokeData.startTime s));
             (js "endTime", readBack (StrokeData.endTime s)) ]
           ++ match StrokeData.pressure s with
              | Some ps => [ (js "pressure", VArray (map readBack ps)) ]
              | None => []
              end).

(** Every number of the stroke is finite, as a test. *)
Definition allFinite (s : StrokeData.t) : bool :=
  forallb isFinite (numbersOf s).


(* ================================================================== *)
(** ** The filter panel  ([components/FilterPanel.tsx]) *)
(* ================================================================== *)

(** [handleToggle] of a checkbox group: the selection handed to
    [onChange].  [eqb] is [===] on the option values. *)
Definition handleToggle {T : Type} (eqb : T -> T -> bool)
    (selected : list T) (value : T) : list T :=
  if existsb (eqb value) selected
  then filter (fun v => negb (eqb v value)) selected
  else selected ++ [value].

(** [keyof ActiveFilters] *)
Inductive FilterType : Type :=
| OfDifficulty | OfPriceType | OfPlatforms | OfSearch.

(** [handleRemoveFilter]: the filters handed to [onFilterChange], or [None]
    when it returns without calling it. *)
Definition handleRemoveFilter (filters : ActiveFilters.t)
    (filterType : FilterType) (value : JsString.t) : option ActiveFilters.t :=
  match filterType with
  | OfSearch => None
  | OfDifficulty =>
      Some (ActiveFilters.mk
              (filter (fun v => negb (JsString.eqb (DifficultyLevel_name v) value))
                      (ActiveFilters.difficulty filters))
              (ActiveFilters.priceType filters)
              (ActiveFilters.platforms filters)
              (ActiveFilters.search filters))
  | OfPriceType =>
      Some (ActiveFilters.mk
              (ActiveFilters.difficulty filters)
              (filter (fun v => negb (JsString.eqb (PriceType_name v) value))
                      (ActiveFilters.priceType filters))
              (ActiveFilters.platforms filters)
              (ActiveFilters.search filters))
  | OfPlatforms =>
      Some (ActiveFilters.mk
              (ActiveFilters.difficulty filters)
              (ActiveFilters.priceType filters)
              (filter (fun v => negb (JsString.eqb (Platform_name v) value))
                      (ActiveFilters.platforms filters))
              (ActiveFilters.search filters))
  end.

(** [handleClearAll]: the filters handed to [onFilterChange]. *)
Definition handleClearAll (filters : ActiveFilters.t) : ActiveFilters.t :=
  ActiveFilters.mk [] [] [] (ActiveFilters.search filters).

(** The keys the components listen to. *)
Inductive Key : Type :=
| KeyArrowDown | KeyArrowUp | KeyArrowLeft | KeyArrowRight
| KeyHome | KeyEnd | KeyOther.

(** [items[i]?.focus()] on a list of [count] elements: the index that gets
    the focus, if [i] is one.  Indices are integers. *)
Definition focusAt (count i : Z) : option Z :=
  if (0 <=? i)%Z && (i <? count)%Z then Some i else None.

(** [handleKeyDown] of a checkbox group with [count] checkboxes: the index
    that gets the focus.  The remainder [%] has the sign of the dividend;
    with no checkbox it is NaN and nothing is focused. *)
Definition checkboxKeyDown (key : Key) (currentIndex count : Z) : option Z :=
  match key with
  | KeyArrowDown =>
      if (count =? 0)%Z then None
      else focusAt count (Z.rem (currentIndex + 1) count)
  | KeyArrowUp =>
      if (count =? 0)%Z then None
      else focusAt count (Z.rem (currentIndex - 1 + count) count)
  | _ => None
  end.

(* ================================================================== *)
(** ** The resource grid  ([components/ResourceGrid.tsx]) *)
(* ================================================================== *)

(** [handleKeyDown] of the grid, mounted with [itemCount] cards laid out in
    [columns] columns: the index that gets the focus. *)
Definition gridKeyDown (key : Key) (currentIndex itemCount columns : Z)
  : option Z :=
  if (itemCount =? 0)%Z then None
  else
    let next :=
      match key with
      | KeyArrowRight => Some (Z.min (currentIndex + 1) (itemCount - 1))
      | KeyArrowLeft => Some (Z.max (currentIndex - 1) 0)
      | KeyArrowDown => Some (Z.min (currentIndex + columns) (itemCount - 1))
      | KeyArrowUp => Some (Z.max (currentIndex - columns) 0)
      | KeyHome => Some 0%Z
      | KeyEnd => Some (itemCount - 1)%Z
      | KeyOther => None
      end in
    match next with
    | None => None
    | Some nextIndex =>
        if negb (nextIndex =? currentIndex)%Z
        then focusAt itemCount nextIndex
        else None
    end.

(* ================================================================== *)
(** ** The category navigation  ([components/CategoryNav.tsx]) *)
(* ================================================================== *)

(** A [Set<string>]: its elements in insertion order, each once. *)
Definition StringSet : Type := list JsString.t.

Definition Set_has (s : StringSet) (x : JsString.t) : bool := includesString s x.

Definition Set_add (s : StringSet) (x : JsString.t) : StringSet :=
  if Set_has s x then s else s ++ [x].

Definition Set_delete (s : StringSet) (x : JsString.t) : StringSet :=
  filter (fun y => negb (JsString.eqb y x)) s.

(** The state update of [toggleCategory]. *)
Definition toggleCategory (prev : StringSet) (categoryId : JsString.t)
  : StringSet :=
  let next := prev in
  if Set_has next categoryId
  then Set_delete next categoryId
  else Set_add next categoryId.

(** [handleKeyDown] of the navigation: the expanded set after the key. *)
Definition navKeyDown (expandedCategories : StringSet) (key : Key)
    (categoryId : JsString.t) (hasSubcategories : bool) : StringSet :=
  match key with
  | KeyArrowRight =>
      if hasSubcategories && negb (Set_has expandedCategories categoryId)
      then toggleCategory expandedCategories categoryId
      else expandedCategories
  | KeyArrowLeft =>
      if hasSubcategories && Set_has expandedCategories categoryId
      then toggleCategory expandedCategories categoryId
      else expandedCategories
  | _ => expandedCategories
  end.


(* ================================================================== *)
(** ** The taxonomy and the data module  ([features/Resources/data]) *)
(* ================================================================== *)

(** [interface Subcategory] *)
Module Subcategory.
Record t : Type := mk {
  id : SubcategoryId;
  name : JsString.t;
  nameJa : JsString.t;
  description : JsString.t;
  descriptionLong : JsString.t;
  parentCategory : CategoryId
}.
End Subcategory.

(** [interface Category] *)
Module Category.
Record t : Type := mk {
  id : CategoryId;
  name : JsString.t;
  nameJa : JsString.t;
  description : JsString.t;
  descriptionLong : JsString.t;
  icon : JsString.t;
  subcategories : list Subcategory.t;
  order : JsNumber
}.
End Category.

(** A subcategory spread into an object with its [resourceCount]. *)
Module SubcategoryWithCount.
Record t : Type := mk {
  subcategory : Subcategory.t;
  resourceCount : nat
}.
End SubcategoryWithCount.

(** A category spread into an object with its [resourceCount] and
    [subcategoriesWithCount]. *)
Module CategoryWithCount.
Record t : Type := mk {
  category : Category.t;
  resourceCount : nat;
  subcategoriesWithCount : list SubcategoryWithCount.t
}.
End CategoryWithCount.

Section Data.

(** The contents of the JSON files the module imports: the categories of
    [categories.json], and for each key of [resourcesByCategory] the
    resources of its file.  The keys of [resourcesByCategory] are the
    sixteen category ids, written in the order of [CATEGORY_IDS]. *)
Variable categories : list Category.t.
Variable resourcesByCategory : CategoryId -> list Resource.t.

Definition getAllCategories : list Category.t := categories.

Definition getCategoryById (id : JsString.t) : option Category.t :=
  find (fun cat => JsString.eqb (CategoryId_name (Category.id cat)) id)
       categories.

Definition getSubcategoryById (categoryId : JsString.t)
    (subcategoryId : JsString.t) : option Subcategory.t :=
  match getCategoryById categoryId with
  | None => None
  | Some category =>
      find (fun sub => JsString.eqb (Subcategory.id sub) subcategoryId)
           (Category.subcategories category)
  end.

(** The module variable [allResourcesCache]. *)
Definition Cache : Type := option (list Resource.t).

(** [getAllResources], with the cache it reads and the cache it leaves. *)
Definition getAllResources (allResourcesCache : Cache)
  : list Resource.t * Cache :=
  match allResourcesCache with
  | None =>
      let all := concat (map resourcesByCategory CATEGORY_IDS) in
      (all, Some all)
  | Some all => (all, Some all)
  end.

(** [getResourcesByCategory] for an id of the union type [CategoryId], which
    is a key of [resourcesByCategory]; what the lookup gives for other
    strings is not followed. *)
Definition getResourcesByCategory (categoryId : CategoryId)
  : list Resource.t :=
  resourcesByCategory categoryId.

Definition getResourcesBySubcategory (categoryId : CategoryId)
    (subcategoryId : JsString.t) : list Resource.t :=
  let categoryResources := getResourcesByCategory categoryId in
  filter (fun r => JsString.eqb (Resource.subcategory r) subcategoryId)
         categoryResources.

Definition getResourceById (allResourcesCache : Cache) (id : JsString.t)
  : option Resource.t * Cache :=
  let (all, cache) := getAllResources allResourcesCache in
  (find (fun r => JsString.eqb (Resource.id r) id) all, cache).

Definition isFeatured (r : Resource.t) : bool :=
  match Resource.featured r with Some true => true | _ => false end.

Definition getFeaturedResources (allResourcesCache : Cache)
  : list Resource.t * Cache :=
  let (all, cache) := getAllResources allResourcesCache in
  (filter isFeatured all, cache).

Definition getFeaturedResourcesByCategory (categoryId : CategoryId)
  : list Resource.t :=
  filter isFeatured (getResourcesByCategory categoryId).

Definition getTotalResourceCount (allResourcesCache : Cache) : nat * Cache :=
  let (all, cache) := getAllResources allResourcesCache in
  (length all, cache).

Definition getCategoryResourceCount (categoryId : CategoryId) : nat :=
  length (getResourcesByCategory categoryId).

Definition getSubcategoryResourceCount (categoryId : CategoryId)
    (subcategoryId : JsString.t) : nat :=
  length (getResourcesBySubcategory categoryId subcategoryId).

Definition getCategoriesWithCounts : list CategoryWithCount.t :=
  map (fun category =>
         CategoryWithCount.mk category
           (getCategoryResourceCount (Category.id category))
           (map (fun sub =>
                   SubcategoryWithCount.mk sub
                     (getSubcategoryResourceCount (Category.id category)
                                                  (Subcategory.id sub)))
                (Category.subcategories category)))
      categories.

(** The cache is empty or holds the resources of all files. *)
Definition cacheCoherent (allResourcesCache : Cache) : Prop :=
  allResourcesCache = None
  \/ allResourcesCache = Some (concat (map resourcesByCategory CATEGORY_IDS)).

End Data.

(* ================================================================== *)
(** ** Structured data  ([shared/components/SEO]) and the breadcrumbs *)
(* ================================================================== *)

(** [interface BreadcrumbItem] *)
Module BreadcrumbItem.
Record t : Type := mk {
  name : JsString.t;
  url : JsString.t
}.
End BreadcrumbItem.

(** An element of the [itemListElement] of a BreadcrumbList; its [@type] is
    always [ListItem]. *)
Module BreadcrumbElement.
Record t : Type := mk {
  position : nat;
  name : JsString.t;
  item : JsString.t
}.
End BreadcrumbElement.





(** A Schema.org Offer. *)
Module Offer.
Record t : Type := mk {
  price : JsString.t;
  priceCurrency : option JsString.t
}.
End Offer.

Definition mapPriceToOffer (resource : Resource.t) : option Offer.t :=
  if PriceType_eqb (Resource.priceType resource) free
  then Some (Offer.mk (js "0") (Some (js "USD")))
  else if truthy (Resource.priceDetails resource)
  then Some (Offer.mk (textOf (Resource.priceDetails resource)) None)
  else None.

(** The table [osMap]. *)
Definition osMap (p : Platform) : option JsString.t :=
  match p with
  | web => Some (js "Web Browser")
  | ios => Some (js "iOS")
  | android => Some (js "Android")
  | windows => Some (js "Windows")
  | macos => Some (js "macOS")
  | linux => Some (js "Linux")
  | _ => None
  end.

Definition mapPlatformsToOS (platforms : list Platform) : JsString.t :=
  JsString.join (js ", ")
    (map (fun p => textOf (osMap p))
         (filter (fun p => truthy (osMap p)) platforms)).

(** Truthiness of an optional number: present, not zero and not NaN. *)
Definition truthyNumber (x : option JsNumber) : bool :=
  match x with
  | Some (S754_zero _) | Some S754_nan | None => false
  | Some _ => true
  end.

(** The [item] of a list element, by its [@type].  A member that the source
    spreads in only when its value is truthy is an option here; constant
    members ([applicationCategory], [bestRating]) are left to the
    constructor. *)
Inductive SchemaItem : Type :=
| SoftwareApplication (name description url : JsString.t)
    (operatingSystem : option JsString.t) (offers : option Offer.t)
    (ratingValue : option JsNumber)
| Book (name description url : JsString.t) (offers : option Offer.t)
    (ratingValue : option JsNumber)
| WebPage (name description url : JsString.t).

(** An element of the [itemListElement] of an ItemList. *)
Module ListItem.
Record t : Type := mk {
  position : nat;
  item : SchemaItem
}.
End ListItem.

Definition whenTruthy (s : JsString.t) : option JsString.t :=
  match s with [] => None | _ => Some s end.

Definition ratingWhenTruthy (x : option JsNumber) : option JsNumber :=
  if truthyNumber x then x else None.

Definition generateSoftwareApplicationItem (resource : Resource.t)
    (position : nat) : ListItem.t :=
  let offer := mapPriceToOffer resource in
  let operatingSystem := mapPlatformsToOS (Resource.platforms resource) in
  ListItem.mk position
    (SoftwareApplication (Resource.name resource)
       (Resource.description resource) (Resource.url resource)
       (whenTruthy operatingSystem) offer
       (ratingWhenTruthy (Resource.rating resource))).

Definition generateBookItem (resource : Resource.t) (position : nat)
  : ListItem.t :=
  let offer := mapPriceToOffer resource in
  ListItem.mk position
    (Book (Resource.name resource) (Resource.description resource)
          (Resource.url resource) offer
          (ratingWhenTruthy (Resource.rating resource))).

Definition generateWebPageItem (resource : Resource.t) (position : nat)
  : ListItem.t :=
  ListItem.mk position
    (WebPage (Resource.name resource) (Resource.description resource)
             (Resource.url resource)).

Definition generateListItem (resource : Resource.t) (position : nat)
  : ListItem.t :=
  match Resource.category resource with
  | apps => generateSoftwareApplicationItem resource position
  | textbooks => generateBookItem resource position
  | _ => generateWebPageItem resource position
  end.

(** The ItemList schema, without its three constant members. *)
Module ItemList.
Record t : Type := mk {
  name : JsString.t;
  description : JsString.t;
  numberOfItems : nat;
  itemListElement : list ListItem.t
}.
End ItemList.

Definition generateItemListSchema (name description : JsString.t)
    (resources : list Resource.t) : ItemList.t :=
  ItemList.mk name description (length resources)
    (mapWithIndex (fun resource index => generateListItem resource (index + 1))
                  0 resources).

(** The three texts every item carries. *)
Definition itemTexts (i : SchemaItem) : JsString.t * JsString.t * JsString.t :=
  match i with
  | SoftwareApplication n d u _ _ _ => (n, d, u)
  | Book n d u _ _ => (n, d, u)
  | WebPage n d u => (n, d, u)
  end.

Definition resourceTexts (r : Resource.t)
  : JsString.t * JsString.t * JsString.t :=
  (Resource.name r, Resource.description r, Resource.url r).

(** The [@type] of an item agrees with the category of a resource. *)
Definition typeFits (r : Resource.t) (i : SchemaItem) : Prop :=
  match i with
  | SoftwareApplication _ _ _ _ _ _ => Resource.category r = apps
  | Book _ _ _ _ _ => Resource.category r = textbooks
  | WebPage _ _ _ =>
      Resource.category r <> apps /\ Resource.category r <> textbooks
  end.

(* ================================================================== *)
(** * Properties *)
(* ================================================================== *)

(** ** Strings and membership tests *)

Lemma JsString_eqb_eq (a b : JsString.t) : JsString.eqb a b = true <-> a = b.
Proof.
  revert b; induction a as [|x a IH]; intros [|y b]; simpl;
    try (split; [discriminate | congruence]); try tauto.
  rewrite andb_true_iff, N.eqb_eq, IH. split.
  - intros [-> ->]; reflexivity.
  - intros H; injection H; auto.
Qed.

Lemma JsString_eqb_refl (a : JsString.t) : JsString.eqb a a = true.
Proof. apply JsString_eqb_eq; reflexivity. Qed.

Lemma JsString_eqb_neq (a b : JsString.t) : JsString.eqb a b = false <-> a <> b.
Proof.
  rewrite <- JsString_eqb_eq. destruct (JsString.eqb a b); split; congruence.
Qed.

Lemma includesString_In (xs : list JsString.t) (s : JsString.t) :
  includesString xs s = true <-> In s xs.
Proof.
  unfold includesString. rewrite existsb_exists. split.
  - intros (x & Hx & E). apply JsString_eqb_eq in E. subst; assumption.
  - intros H. exists s. split; [assumption | apply JsString_eqb_refl].
Qed.

Lemma DifficultyLevel_eqb_eq (a b : DifficultyLevel) :
  DifficultyLevel_eqb a b = true <-> a = b.
Proof. destruct a, b; simpl; split; congruence. Qed.

Lemma PriceType_eqb_eq (a b : PriceType) : PriceType_eqb a b = true <-> a = b.
Proof. destruct a, b; simpl; split; congruence. Qed.

Lemma Platform_eqb_eq (a b : Platform) : Platform_eqb a b = true <-> a = b.
Proof. destruct a, b; simpl; split; congruence. Qed.

(** [xs.includes(a)] decides membership, for any [===] that decides
    equality. *)
Lemma existsb_eqb_In {A : Type} (eqb : A -> A -> bool)
    (eqb_eq : forall a b, eqb a b = true <-> a = b) (a : A) (xs : list A) :
  existsb (eqb a) xs = true <-> In a xs.
Proof.
  rewrite existsb_exists. split.
  - intros (x & Hx & E). apply eqb_eq in E. subst; assumption.
  - intros H. exists a. split; [assumption | apply eqb_eq; reflexivity].
Qed.

(** ** Lists: subsequences and filters *)

Lemma Subsequence_refl {A : Type} (l : list A) : Subsequence l l.
Proof. induction l; constructor; assumption. Qed.

Lemma Subsequence_trans {A : Type} (a b c : list A) :
  Subsequence a b -> Subsequence b c -> Subsequence a c.
Proof.
  intros Hab Hbc. revert a Hab.
  induction Hbc as [| x b c Hbc IH | x b c Hbc IH]; intros a Hab.
  - assumption.
  - inversion Hab; subst.
    + apply Subsequence_keep. apply IH. assumption.
    + apply Subsequence_drop. apply IH. assumption.
  - apply Subsequence_drop. apply IH. assumption.
Qed.

Lemma filter_Subsequence {A : Type} (p : A -> bool) (l : list A) :
  Subsequence (filter p l) l.
Proof.
  induction l as [|a l IH]; simpl.
  - constructor.
  - destruct (p a); constructor; assumption.
Qed.

Lemma Subsequence_In {A : Type} (a b : list A) :
  Subsequence a b -> forall x, In x a -> In x b.
Proof.
  induction 1; simpl; intros y Hy; intuition.
Qed.

Lemma Subsequence_length {A : Type} (a b : list A) :
  Subsequence a b -> length a <= length b.
Proof. induction 1; simpl; lia. Qed.

Lemma filter_filter {A : Type} (p q : A -> bool) (l : list A) :
  filter p (filter q l) = filter (fun a => q a && p a) l.
Proof.
  induction l as [|a l IH]; simpl; [reflexivity|].
  destruct (q a); simpl; [destruct (p a)|]; rewrite IH; reflexivity.
Qed.

Lemma filter_true {A : Type} (l : list A) : filter (fun _ => true) l = l.
Proof. induction l; simpl; congruence. Qed.

(** ** Predicate filters *)

Lemma filterByDifficulty_filter R sel :
  filterByDifficulty R sel = filter (difficultyTest sel) R.
Proof. destruct sel; simpl; [symmetry; apply filter_true | reflexivity]. Qed.

Lemma filterByPriceType_filter R sel :
  filterByPriceType R sel = filter (priceTypeTest sel) R.
Proof. destruct sel; simpl; [symmetry; apply filter_true | reflexivity]. Qed.

Lemma filterByPlatform_filter R sel :
  filterByPlatform R sel = filter (platformTest sel) R.
Proof. destruct sel; simpl; [symmetry; apply filter_true | reflexivity]. Qed.

Lemma applyDimension_filter f R d :
  applyDimension f R d = filter (dimensionTest f d) R.
Proof.
  destruct d; simpl;
    [apply filterByDifficulty_filter | apply filterByPriceType_filter
    | apply filterByPlatform_filter].
Qed.

Lemma applyInOrder_filter order f R :
  applyInOrder order f R
  = filter (fun r => forallb (fun d => dimensionTest f d r) order) R.
Proof.
  unfold applyInOrder. revert R.
  induction order as [|d order IH]; intros R; simpl.
  - symmetry; apply filter_true.
  - rewrite IH, applyDimension_filter, filter_filter. reflexivity.
Qed.

Lemma forallb_Permutation {A : Type} (p : A -> bool) (a b : list A) :
  Permutation a b -> forallb p a = forallb p b.
Proof.
  induction 1; simpl.
  - reflexivity.
  - congruence.
  - destruct (p x), (p y); reflexivity.
  - congruence.
Qed.

Lemma combineFilters_applyInOrder R f :
  combineFilters R f = applyInOrder [ByDifficulty; ByPriceType; ByPlatform] f R.
Proof.
  unfold combineFilters, applyInOrder. simpl.
  destruct (ActiveFilters.difficulty f), (ActiveFilters.priceType f),
    (ActiveFilters.platforms f); reflexivity.
Qed.

Lemma difficultyTest_sound sel r :
  difficultyTest sel r = true -> sel <> [] -> In (Resource.difficulty r) sel.
Proof.
  destruct sel as [|d sel]; [congruence|]. intros H _.
  apply (existsb_eqb_In _ DifficultyLevel_eqb_eq). exact H.
Qed.

Lemma priceTypeTest_sound sel r :
  priceTypeTest sel r = true -> sel <> [] -> In (Resource.priceType r) sel.
Proof.
  destruct sel as [|d sel]; [congruence|]. intros H _.
  apply (existsb_eqb_In _ PriceType_eqb_eq). exact H.
Qed.

Lemma platformTest_sound sel r :
  platformTest sel r = true -> sel <> [] ->
  exists p, In p (Resource.platforms r) /\ In p sel.
Proof.
  destruct sel as [|d sel]; [congruence|]. intros H _.
  unfold platformTest in H. apply existsb_exists in H.
  destruct H as (p & Hp & H). exists p. split; [assumption|].
  apply (existsb_eqb_In _ Platform_eqb_eq). exact H.
Qed.

Lemma sameIdSet_eq (a b : list Resource.t) : a = b -> sameIdSet a b.
Proof. intros ->; intros i; tauto. Qed.

(** C1.  Every record of [combineFilters R f] satisfies every non-empty
    dimension of [f] at once; the result lies within the result of each
    per-dimension filter applied to [R]; and applying the three dimension
    filters in any of their six orders gives the same records as
    [combineFilters], hence the same set of ids. *)
Theorem combineFilters_conjunction (R : list Resource.t) (f : ActiveFilters.t) :
  (forall r, In r (combineFilters R f) ->
     (ActiveFilters.difficulty f <> [] -> satisfiesDifficulty f r)
     /\ (ActiveFilters.priceType f <> [] -> satisfiesPriceType f r)
     /\ (ActiveFilters.platforms f <> [] -> satisfiesPlatform f r))
  /\ (forall r, In r (combineFilters R f) ->
        In r (filterByDifficulty R (ActiveFilters.difficulty f))
        /\ In r (filterByPriceType R (ActiveFilters.priceType f))
        /\ In r (filterByPlatform R (ActiveFilters.platforms f)))
  /\ (forall order,
        Permutation order [ByDifficulty; ByPriceType; ByPlatform] ->
        applyInOrder order f R = combineFilters R f
        /\ sameIdSet (applyInOrder order f R) (combineFilters R f)).
Proof.
  assert (Hin : forall r, In r (combineFilters R f) ->
            In r R
            /\ difficultyTest (ActiveFilters.difficulty f) r = true
            /\ priceTypeTest (ActiveFilters.priceType f) r = true
            /\ platformTest (ActiveFilters.platforms f) r = true).
  { intros r. rewrite combineFilters_applyInOrder, applyInOrder_filter.
    rewrite filter_In. simpl. rewrite !andb_true_iff. tauto. }
  split; [|split].
  - intros r Hr. destruct (Hin r Hr) as (_ & Hd & Hp & Hl).
    repeat split.
    + apply difficultyTest_sound; assumption.
    + apply priceTypeTest_sound; assumption.
    + apply platformTest_sound; assumption.
  - intros r Hr. destruct (Hin r Hr) as (HR & Hd & Hp & Hl).
    rewrite filterByDifficulty_filter, filterByPriceType_filter,
      filterByPlatform_filter.
    rewrite !filter_In. tauto.
  - intros order Hperm.
    assert (E : applyInOrder order f R = combineFilters R f).
    { rewrite combineFilters_applyInOrder, !applyInOrder_filter.
      apply filter_ext. intros r. apply forallb_Permutation. assumption. }
    split; [exact E | apply sameIdSet_eq; exact E].
Qed.

Lemma combineFilters_conjunction_witness :
  In recordA (combineFilters [recordA; recordB] beginnerOnly)
  /\ satisfiesDifficulty beginnerOnly recordA
  /\ In recordA (filterByDifficulty [recordA; recordB] [beginner])
  /\ applyInOrder [ByPlatform; ByDifficulty; ByPriceType] beginnerOnly
       [recordA; recordB]
     = combineFilters [recordA; recordB] beginnerOnly.
Proof.
  destruct (combineFilters_conjunction [recordA; recordB] beginnerOnly)
    as (Hsat & Hsub & Hperm).
  assert (Hin : In recordA (combineFilters [recordA; recordB] beginnerOnly))
    by (simpl; left; reflexivity).
  split; [exact Hin|]. split; [|split].
  - apply (Hsat recordA Hin). simpl. discriminate.
  - apply (Hsub recordA Hin).
  - apply Hperm.
    apply Permutation_sym.
    apply (perm_trans (l' := [ByDifficulty; ByPlatform; ByPriceType])).
    + apply perm_skip. apply perm_swap.
    + apply perm_swap.
Defined.

(** The scenario of the specification, evaluated. *)
Example scenario_filters :
  filterByCategory [recordA; recordB] (js "apps") = [recordA; recordB]
  /\ filterByDifficulty [recordA; recordB] [beginner] = [recordA]
  /\ combineFilters [recordA; recordB] beginnerOnly = [recordA]
  /\ getCategoryResourceCounts [recordA; recordB] = [(js "apps", 2)].
Proof. repeat split. Qed.

(** C7.  With an empty selector set each of the three selector filters
    returns its input as it is; with a non-empty one it keeps exactly the
    records whose difficulty (price type) is in the set, or, for platforms,
    that have a platform in the set. *)
Theorem selector_filters_exact (R : list Resource.t) :
  filterByDifficulty R [] = R
  /\ filterByPriceType R [] = R
  /\ filterByPlatform R [] = R
  /\ (forall sel, sel <> [] ->
        keepsExactly (fun r => In (Resource.difficulty r) sel) R
                     (filterByDifficulty R sel))
  /\ (forall sel, sel <> [] ->
        keepsExactly (fun r => In (Resource.priceType r) sel) R
                     (filterByPriceType R sel))
  /\ (forall sel, sel <> [] ->
        keepsExactly (fun r => exists p, In p (Resource.platforms r) /\ In p sel)
                     R (filterByPlatform R sel)).
Proof.
  repeat split; try reflexivity.
  - intros sel Hsel.
    exists (fun r => existsb (DifficultyLevel_eqb (Resource.difficulty r)) sel).
    split.
    + intros r. apply (existsb_eqb_In _ DifficultyLevel_eqb_eq).
    + destruct sel; [congruence | reflexivity].
  - intros sel Hsel.
    exists (fun r => existsb (PriceType_eqb (Resource.priceType r)) sel).
    split.
    + intros r. apply (existsb_eqb_In _ PriceType_eqb_eq).
    + destruct sel; [congruence | reflexivity].
  - intros sel Hsel.
    exists (fun r => existsb (fun p => existsb (Platform_eqb p) sel)
                             (Resource.platforms r)).
    split.
    + intros r. rewrite existsb_exists. split.
      * intros (p & Hp & H). exists p. split; [assumption|].
        apply (existsb_eqb_In _ Platform_eqb_eq). exact H.
      * intros (p & Hp & H). exists p. split; [assumption|].
        apply (existsb_eqb_In _ Platform_eqb_eq). exact H.
    + destruct sel; [congruence | reflexivity].
Qed.

Lemma selector_filters_exact_witness :
  keepsExactly (fun r => In (Resource.difficulty r) [beginner])
               [recordA; recordB]
               (filterByDifficulty [recordA; recordB] [beginner])
  /\ filterByPlatform [recordA; recordB] [] = [recordA; recordB].
Proof.
  destruct (selector_filters_exact [recordA; recordB])
    as (_ & _ & Hempty & Hd & _).
  split; [apply Hd; discriminate | exact Hempty].
Defined.

(** C8.  [filterByCategory R c] is exactly the records of [R] whose category
    is [c]; it returns a list for every input, and the empty list when no
    record matches. *)
Theorem filterByCategory_exact (R : list Resource.t) (c : JsString.t) :
  keepsExactly (fun r => CategoryId_name (Resource.category r) = c) R
               (filterByCategory R c)
  /\ ((forall r, In r R -> CategoryId_name (Resource.category r) <> c) ->
      filterByCategory R c = []).
Proof.
  split.
  - exists (fun r => JsString.eqb (CategoryId_name (Resource.category r)) c).
    split; [intros r; apply JsString_eqb_eq | reflexivity].
  - intros Hnone. unfold filterByCategory.
    induction R as [|r R IH]; simpl; [reflexivity|].
    destruct (JsString.eqb (CategoryId_name (Resource.category r)) c) eqn:E.
    + apply JsString_eqb_eq in E. exfalso.
      apply (Hnone r); [left; reflexivity | exact E].
    + apply IH. intros r' Hr'. apply Hnone. right; assumption.
Qed.

Lemma filterByCategory_exact_witness :
  filterByCategory [recordA; recordB] (js "kanji") = [].
Proof.
  apply (filterByCategory_exact [recordA; recordB] (js "kanji")).
  intros r [<- | [<- | []]]; simpl; discriminate.
Defined.

(** C10.  Every filter and search operation returns a subsequence of its
    input: the kept records are records of the input, unchanged, in their
    original relative order, none repeated and none added. *)
Theorem filters_return_subsequences (R : list Resource.t) :
  (forall c, Subsequence (filterByCategory R c) R)
  /\ (forall s, Subsequence (filterBySubcategory R s) R)
  /\ (forall c s, Subsequence (filterByCategoryAndSubcategory R c s) R)
  /\ (forall sel, Subsequence (filterByDifficulty R sel) R)
  /\ (forall sel, Subsequence (filterByPriceType R sel) R)
  /\ (forall sel, Subsequence (filterByPlatform R sel) R)
  /\ (forall f, Subsequence (combineFilters R f) R)
  /\ (forall q, Subsequence (searchResources R q) R).
Proof.
  repeat split; intros.
  - apply filter_Subsequence.
  - apply filter_Subsequence.
  - apply filter_Subsequence.
  - rewrite filterByDifficulty_filter. apply filter_Subsequence.
  - rewrite filterByPriceType_filter. apply filter_Subsequence.
  - rewrite filterByPlatform_filter. apply filter_Subsequence.
  - rewrite combineFilters_applyInOrder, applyInOrder_filter.
    apply filter_Subsequence.
  - unfold searchResources.
    destruct (length (JsString.toLowerCase (JsString.trim q)) =? 0).
    + apply Subsequence_refl.
    + apply filter_Subsequence.
Qed.

(** ** Search matcher *)

Lemma searchResources_as_filter (R : list Resource.t) (q : JsString.t) :
  searchResources R q = filter (fun r => resourceMatchesQuery r q) R.
Proof.
  unfold searchResources, resourceMatchesQuery.
  destruct (length (JsString.toLowerCase (JsString.trim q)) =? 0).
  - symmetry. apply filter_true.
  - reflexivity.
Qed.

(** C3.  For a record [r] of [R], [resourceMatchesQuery r q] holds exactly
    when [r] is among [searchResources R q]. *)
Theorem resourceMatchesQuery_consistent
    (R : list Resource.t) (r : Resource.t) (q : JsString.t) :
  In r R ->
  (resourceMatchesQuery r q = true <-> In r (searchResources R q)).
Proof.
  intros Hr. rewrite searchResources_as_filter, filter_In. tauto.
Qed.

Lemma resourceMatchesQuery_consistent_witness :
  resourceMatchesQuery recordA (js "ANK") = true
  <-> In recordA (searchResources [recordA; recordB] (js "ANK")).
Proof.
  apply (resourceMatchesQuery_consistent [recordA; recordB] recordA (js "ANK")).
  simpl. left. reflexivity.
Defined.


Lemma toLowerCase_map (s : JsString.t) :
  JsString.toLowerCase s = map lowerLatin s.
Proof.
  unfold JsString.toLowerCase.
  induction s as [|c s IH]; simpl; [reflexivity|].
  rewrite IH. unfold JsString.lowerUnit, lowerLatin.
  destruct ((65 <=? c)%N && (c <=? 90)%N); reflexivity.
Qed.






Section TrimMap.

(** [trim] commutes with a unit-wise mapping that keeps white space white
    space and everything else something else. *)
Variable g : N -> N.
Hypothesis g_white : forall c, JsString.isWhiteSpace (g c) = JsString.isWhiteSpace c.




End TrimMap.





Lemma toLowerCase_nil (s : JsString.t) :
  JsString.toLowerCase s = [] -> s = [].
Proof.
  rewrite toLowerCase_map. destruct s; simpl; [reflexivity | discriminate].
Qed.




Lemma trimStart_nil_iff (s : JsString.t) : JsString.trimStart s = [] <-> isBlank s.
Proof.
  unfold isBlank. induction s as [|c s IH]; simpl.
  - split; [constructor | reflexivity].
  - destruct (JsString.isWhiteSpace c) eqn:E.
    + rewrite IH. split.
      * intros H. constructor; assumption.
      * intros H. inversion H; assumption.
    + split; [discriminate|]. intros H. inversion H; congruence.
Qed.

Lemma trimStart_head (s : JsString.t) (c : N) (s' : JsString.t) :
  JsString.trimStart s = c :: s' -> JsString.isWhiteSpace c = false.
Proof.
  induction s as [|d s IH]; simpl; [discriminate|].
  destruct (JsString.isWhiteSpace d) eqn:E; [exact IH|].
  intros H. injection H as <- _. exact E.
Qed.

Lemma trim_nil_iff (q : JsString.t) : JsString.trim q = [] <-> isBlank q.
Proof.
  split.
  - unfold JsString.trim, JsString.trimEnd. intros H.
    apply (f_equal (@rev N)) in H. rewrite rev_involutive in H. simpl in H.
    apply trimStart_nil_iff in H.
    destruct (JsString.trimStart q) as [|c s] eqn:E.
    + apply trimStart_nil_iff. exact E.
    + exfalso. apply trimStart_head in E.
      unfold isBlank in H. rewrite Forall_forall in H.
      rewrite (H c) in E; [discriminate|].
      apply in_rev. rewrite rev_involutive. left; reflexivity.
  - intros H. apply trimStart_nil_iff in H.
    unfold JsString.trim. rewrite H. reflexivity.
Qed.




Example searchResources_strasse :
  searchResources [recordStrasse] sharpS = [recordStrasse]
  /\ JsString.toUpperCase sharpS = js "SS"
  /\ searchResources [recordStrasse] (js "SS") = [].
Proof. repeat split. Qed.

(** ** Count aggregator *)

Lemma Map_set_sum (m : CountMap) (key : JsString.t) (value : nat) :
  sum (Map_values (Map_set m key value)) + Map_getOrZero m key
  = sum (Map_values m) + value.
Proof.
  unfold sum, Map_values.
  induction m as [|[k n] m IH]; simpl.
  - lia.
  - destruct (JsString.eqb key k); simpl; lia.
Qed.

Lemma increment_sum (m : CountMap) (key : JsString.t) :
  sum (Map_values (increment m key)) = S (sum (Map_values m)).
Proof.
  unfold increment.
  pose proof (Map_set_sum m key (Map_getOrZero m key + 1)). lia.
Qed.

Lemma count_all_sum (key : Resource.t -> JsString.t) (R : list Resource.t)
    (acc : CountMap) :
  sum (Map_values (fold_left (fun counts r => increment counts (key r)) R acc))
  = sum (Map_values acc) + length R.
Proof.
  revert acc. induction R as [|r R IH]; intros acc; simpl.
  - lia.
  - rewrite IH, increment_sum. lia.
Qed.

Lemma count_some_sum (keep : Resource.t -> bool) (key : Resource.t -> JsString.t)
    (R : list Resource.t) (acc : CountMap) :
  sum (Map_values
         (fold_left (fun counts r =>
                       if keep r then increment counts (key r) else counts)
                    R acc))
  = sum (Map_values acc) + length (filter keep R).
Proof.
  revert acc. induction R as [|r R IH]; intros acc; simpl.
  - lia.
  - rewrite IH. destruct (keep r); simpl.
    + rewrite increment_sum. lia.
    + reflexivity.
Qed.

(** C9.  The values of [getCategoryResourceCounts R] add up to the number
    of records, and the values of [getSubcategoryResourceCounts R c] add up
    to the category's own count [getResourceCountForCategory R c]. *)
Theorem counts_add_up (R : list Resource.t) :
  sum (Map_values (getCategoryResourceCounts R)) = length R
  /\ forall c,
       sum (Map_values (getSubcategoryResourceCounts R c))
       = getResourceCountForCategory R c.
Proof.
  split.
  - unfold getCategoryResourceCounts.
    rewrite (count_all_sum (fun r => CategoryId_name (Resource.category r))).
    reflexivity.
  - intros c. unfold getSubcategoryResourceCounts, getResourceCountForCategory.
    rewrite (count_some_sum
               (fun r => JsString.eqb (CategoryId_name (Resource.category r)) c)
               Resource.subcategory).
    reflexivity.
Qed.

Example counts_scenario :
  getSubcategoryResourceCounts [recordA; recordB; recordStrasse] (js "apps")
  = [(js "flashcards", 1); (js "grammar", 1)]
  /\ getResourceCountForCategory [recordA; recordB; recordStrasse] (js "apps")
     = 2.
Proof. split; reflexivity. Qed.

(** ** Stroke serializer: validation *)

Lemma string_test (v : JsValue) :
  isTypeOf v TString = true <-> exists i, v = VString i.
Proof.
  destruct v; simpl; split; try discriminate;
    try (intros (i & E); discriminate); try reflexivity.
  intros _. eexists; reflexivity.
Qed.

Lemma number_test (v : JsValue) :
  negb (isTypeOf v TNumber) || Number_isNaN v = false <-> isNumeric v.
Proof.
  unfold isNumeric.
  destruct v; simpl; split; try discriminate;
    try (intros (x' & E & _); discriminate).
  - intros H. exists x. split; [reflexivity | exact H].
  - intros (x' & E & H). injection E as <-. exact H.
Qed.

Lemma array_test (v : JsValue) :
  Array_isArray v = true <-> exists l, v = VArray l.
Proof.
  destruct v; simpl; split; try discriminate;
    try (intros (i & E); discriminate); try reflexivity.
  intros _. eexists; reflexivity.
Qed.

Lemma number_test_and (v : JsValue) :
  isTypeOf v TNumber && negb (Number_isNaN v) = true <-> isNumeric v.
Proof.
  rewrite <- number_test.
  destruct (isTypeOf v TNumber), (Number_isNaN v); simpl; split; congruence.
Qed.

Lemma isValidPoint_spec (p : JsValue) :
  isValidPoint p = true <-> WellShapedPoint p.
Proof.
  unfold isValidPoint, WellShapedPoint.
  rewrite <- !number_test_and.
  destruct p; simpl; try (split; [discriminate | intros (H & _); discriminate]).
  rewrite !andb_true_iff. tauto.
Qed.

Lemma forallb_isValidPoint (pts : list JsValue) :
  forallb isValidPoint pts = true <-> Forall WellShapedPoint pts.
Proof.
  rewrite forallb_forall, Forall_forall.
  split; intros H p Hp; apply isValidPoint_spec, H, Hp.
Qed.

Lemma forallb_numeric (ps : list JsValue) :
  forallb (fun p => isTypeOf p TNumber && negb (Number_isNaN p)) ps = true
  <-> Forall isNumeric ps.
Proof.
  rewrite forallb_forall, Forall_forall.
  split; intros H p Hp; apply number_test_and, H, Hp.
Qed.

(** The validator decides structural validity as the specification words
    it. *)
Lemma isValidStrokeData_spec (s : JsValue) :
  isValidStrokeData s = true <-> WellShapedStroke s.
Proof.
  unfold isValidStrokeData, WellShapedStroke.
  destruct s; simpl;
    try (split; [discriminate | intros ((i & E) & _); discriminate]).
  rewrite <- string_test, <- !number_test.
  generalize (lookup (js "id") properties) as vid.
  generalize (lookup (js "startTime") properties) as vstart.
  generalize (lookup (js "endTime") properties) as vend.
  generalize (lookup (js "points") properties) as vpoints.
  generalize (lookup (js "pressure") properties) as vpressure.
  intros vpressure vpoints vend vstart vid.
  destruct (isTypeOf vid TString); simpl;
    [|split; [discriminate | intros (H & _); discriminate]].
  destruct (negb (isTypeOf vstart TNumber) || Number_isNaN vstart); simpl;
    [split; [discriminate | intros (_ & H & _); discriminate]|].
  destruct (negb (isTypeOf vend TNumber) || Number_isNaN vend); simpl;
    [split; [discriminate | intros (_ & _ & H & _); discriminate]|].
  destruct vpoints as [| | | | | |pts|]; simpl;
    try (split; [discriminate
                | intros (_ & _ & _ & (pts & E & _) & _); discriminate]).
  destruct (forallb isValidPoint pts) eqn:Epts; simpl.
  - apply forallb_isValidPoint in Epts.
    destruct vpressure as [| | | | | |ps|]; simpl;
      try (split; [discriminate
                  | intros (_ & _ & _ & _ & [E | (ps & E & _)]);
                    discriminate]).
    + split; [|reflexivity]. intros _. repeat split.
      * exists pts; split; [reflexivity | assumption].
      * left; reflexivity.
    + destruct (forallb (fun p => isTypeOf p TNumber && negb (Number_isNaN p))
                        ps) eqn:Eps; simpl.
      * apply forallb_numeric in Eps.
        split; [|reflexivity]. intros _. repeat split.
        -- exists pts; split; [reflexivity | assumption].
        -- right. exists ps; split; [reflexivity | assumption].
      * split; [discriminate|].
        intros (_ & _ & _ & _ & [E | (ps' & E & H)]); [discriminate|].
        injection E as <-. apply forallb_numeric in H. congruence.
  - split; [discriminate|].
    intros (_ & _ & _ & (pts' & E & H) & _).
    injection E as <-. apply forallb_isValidPoint in H. congruence.
Qed.

Lemma isValidStrokeData_false (s : JsValue) :
  isValidStrokeData s = false <-> ~ WellShapedStroke s.
Proof.
  rewrite <- isValidStrokeData_spec.
  destruct (isValidStrokeData s); split; congruence.
Qed.

(** ** Stroke serializer: the loop of [deserialize] *)

Lemma checkStrokes_spec (l : list JsValue) (i0 : nat) :
  (forallb isValidStrokeData l = true /\ checkStrokes i0 l = Normal tt)
  \/ (exists k s,
        nth_error l k = Some s
        /\ isValidStrokeData s = false
        /\ (forall j s', j < k -> nth_error l j = Some s' ->
                         isValidStrokeData s' = true)
        /\ checkStrokes i0 l
           = Throw (Error (js "Invalid stroke data at index "
                           ++ JsString.ofIndex (i0 + k)))).
Proof.
  revert i0. induction l as [|s l IH]; intros i0; simpl.
  - left. split; reflexivity.
  - destruct (isValidStrokeData s) eqn:Es; simpl.
    + destruct (IH (S i0)) as [[Hall Hok] | (k & s' & Hk & Hbad & Hbefore & Hthrow)].
      * left. split; assumption.
      * right. exists (S k), s'. repeat split; try assumption.
        -- intros [|j] t Hj Ht; simpl in Ht.
           ++ injection Ht as <-. exact Es.
           ++ apply (Hbefore j); [lia | exact Ht].
        -- rewrite Hthrow. replace (i0 + S k) with (S i0 + k) by lia.
           reflexivity.
    + right. exists 0, s. repeat split; try assumption.
      * intros j t Hj. lia.
      * rewrite Nat.add_0_r. reflexivity.
Qed.

Lemma forallb_nth_error {A : Type} (p : A -> bool) (l : list A) :
  forallb p l = true <-> forall i a, nth_error l i = Some a -> p a = true.
Proof.
  rewrite forallb_forall. split.
  - intros H i a Hi. apply H. eapply nth_error_In; eassumption.
  - intros H a Ha. apply In_nth_error in Ha. destruct Ha as (i & Hi).
    apply (H i). exact Hi.
Qed.

(** C6.  [deserialize] throws exactly when its input is not JSON text, or
    the parsed value is not an array, or some element of the array fails
    structural validation; in the last case the message of the error names
    the index of the first element that fails; and when it does not throw it
    returns the parsed array, every element of which is well shaped. *)
Theorem deserialize_throws_exactly (json : JsonText) :
  ((exists e, deserialize json = Throw e) <->
     JSON_parse json = Throw SyntaxError
     \/ (exists v, JSON_parse json = Normal v /\ Array_isArray v = false)
     \/ (exists l i s, JSON_parse json = Normal (VArray l)
                       /\ nth_error l i = Some s /\ ~ WellShapedStroke s))
  /\ (forall l, JSON_parse json = Normal (VArray l) ->
        (exists s, In s l /\ ~ WellShapedStroke s) ->
        exists i s,
          nth_error l i = Some s
          /\ ~ WellShapedStroke s
          /\ (forall j s', j < i -> nth_error l j = Some s' ->
                           WellShapedStroke s')
          /\ deserialize json
             = Throw (Error (js "Invalid stroke data at index "
                             ++ JsString.ofIndex i)))
  /\ (forall l, deserialize json = Normal l ->
        JSON_parse json = Normal (VArray l) /\ Forall WellShapedStroke l).
Proof.
  unfold deserialize.
  destruct json as [document | text]; simpl.
  2:{ split; [|split].
      - split; [intros _; left; reflexivity | intros _; eexists; reflexivity].
      - intros l H; discriminate.
      - intros l H; discriminate. }
  destruct (fromJson document) as [| | | | | |l|] eqn:Eparsed;
    try (split; [|split];
         [ split; [ intros _; right; left; eexists; split; reflexivity
                  | intros _; eexists; reflexivity ]
         | intros l H; discriminate
         | intros l H; discriminate ]).
  destruct (checkStrokes_spec l 0)
    as [[Hall Hok] | (k & s & Hk & Hbad & Hbefore & Hthrow)].
  - rewrite Hok. simpl. split; [|split].
    + split; [intros (e & H); discriminate|].
      intros [H | [(v & E & H) | (l' & i & s & E & Hi & Hs)]].
      * discriminate.
      * injection E as <-. discriminate.
      * injection E as <-. exfalso. apply Hs, isValidStrokeData_spec.
        rewrite forallb_nth_error in Hall. apply (Hall i). exact Hi.
    + intros l' E (s & Hs & Hbad). injection E as <-. exfalso.
      apply Hbad, isValidStrokeData_spec.
      rewrite forallb_forall in Hall. apply Hall. exact Hs.
    + intros l' E. injection E as <-. split; [reflexivity|].
      rewrite Forall_forall. rewrite forallb_forall in Hall.
      intros s Hs. apply isValidStrokeData_spec, Hall, Hs.
  - rewrite Hthrow. simpl. split; [|split].
    + split; [|intros _; eexists; reflexivity].
      intros _. right; right. exists l, k, s.
      split; [reflexivity|]. split; [exact Hk|].
      apply isValidStrokeData_false. exact Hbad.
    + intros l' E _. injection E as <-. exists k, s.
      split; [exact Hk|]. split; [apply isValidStrokeData_false; exact Hbad|].
      split; [|reflexivity].
      intros j s' Hj Hs'. apply isValidStrokeData_spec.
      apply (Hbefore j); assumption.
    + intros l' H. discriminate.
Qed.

Lemma deserialize_throws_exactly_witness :
  exists i s,
    nth_error [ StrokeData_toJs (StrokeData.mk (js "s1") [] posZero five None);
                VNumber (S754_finite false 7881299347898368 (-50)) ] i = Some s
    /\ ~ WellShapedStroke s
    /\ deserialize textWithBadElement
       = Throw (Error (js "Invalid stroke data at index " ++ JsString.ofIndex i)).
Proof.
  destruct (deserialize_throws_exactly textWithBadElement) as (_ & Hindex & _).
  destruct (Hindex _ eq_refl) as (i & s & Hi & Hs & _ & Hthrow).
  - exists (VNumber (S754_finite false 7881299347898368 (-50))). split.
    + simpl. right. left. reflexivity.
    + intros ((i & E) & _). discriminate.
  - exists i, s. repeat split; assumption.
Defined.

Example deserialize_bad_element :
  deserialize textWithBadElement
  = Throw (Error (js "Invalid stroke data at index 1"))
  /\ deserialize (Malformed (js "[1,")) = Throw SyntaxError
  /\ deserialize (WellFormed (JObject []))
     = Throw (Error (js "Invalid stroke data: expected an array"))
  /\ deserialize (WellFormed (JArray [])) = Normal [].
Proof. repeat split. Qed.

(** ** Stroke serializer: the round trip *)

Lemma isNaN_dropZeroSign (x : JsNumber) : isNaN (dropZeroSign x) = isNaN x.
Proof. destruct x; reflexivity. Qed.

Lemma dropZeroSign_id (x : JsNumber) : x <> negZero -> dropZeroSign x = x.
Proof.
  destruct x as [[|]| | |]; simpl; try reflexivity.
  intros H. exfalso. apply H. reflexivity.
Qed.

Lemma isFinite_not_NaN (x : JsNumber) : isFinite x = true -> isNaN x = false.
Proof. destruct x; simpl; congruence. Qed.

(** What [JSON.parse] reads back from the text of one finite number. *)
Lemma number_roundtrip (x : JsNumber) :
  isFinite x = true ->
  fromJson (match SerializeJSONProperty (VNumber x) with
            | Some j => j
            | None => JNull
            end)
  = VNumber (dropZeroSign x).
Proof. intros H. simpl. rewrite H. reflexivity. Qed.

Lemma numbers_roundtrip (xs : list JsNumber) :
  Forall (fun x => isFinite x = true) xs ->
  map fromJson
      (map (fun e => match SerializeJSONProperty e with
                     | Some j => j
                     | None => JNull
                     end) (map VNumber xs))
  = map VNumber (map dropZeroSign xs).
Proof.
  induction 1 as [|x xs Hx Hxs IH]; simpl; [reflexivity|].
  rewrite Hx. simpl. f_equal. exact IH.
Qed.

Lemma point_roundtrip (p : Point.t) :
  finitePoint p ->
  fromJson (match SerializeJSONProperty (Point_toJs p) with
            | Some j => j
            | None => JNull
            end)
  = Point_toJs (dropZeroSignsPoint p).
Proof.
  intros (Hx & Hy & Ht). simpl. rewrite Hx, Hy, Ht. reflexivity.
Qed.

Lemma points_roundtrip (pts : list Point.t) :
  Forall finitePoint pts ->
  map fromJson
      (map (fun e => match SerializeJSONProperty e with
                     | Some j => j
                     | None => JNull
                     end) (map Point_toJs pts))
  = map Point_toJs (map dropZeroSignsPoint pts).
Proof.
  induction 1 as [|p pts Hp Hpts IH]; [reflexivity|].
  cbn [map]. rewrite (point_roundtrip Hp). f_equal. exact IH.
Qed.

Lemma finiteStroke_parts (s : StrokeData.t) :
  finiteStroke s ->
  isFinite (StrokeData.startTime s) = true
  /\ isFinite (StrokeData.endTime s) = true
  /\ Forall finitePoint (StrokeData.points s)
  /\ match StrokeData.pressure s with
     | Some ps => Forall (fun x => isFinite x = true) ps
     | None => True
     end.
Proof.
  unfold finiteStroke, numbersOf. intros H.
  inversion H as [|? ? Hs H1]; subst. inversion H1 as [|? ? He H2]; subst.
  apply Forall_app in H2. destruct H2 as [Hpts Hpr].
  repeat split; try assumption.
  - clear - Hpts. induction (StrokeData.points s) as [|p pts IH];
      [constructor|].
    simpl in Hpts.
    inversion Hpts as [|? ? Hx H1]; subst. inversion H1 as [|? ? Hy H2]; subst.
    inversion H2 as [|? ? Ht H3]; subst.
    constructor; [repeat split; assumption | apply IH; assumption].
  - destruct (StrokeData.pressure s); [assumption | exact I].
Qed.

Lemma stroke_roundtrip_one (s : StrokeData.t) :
  finiteStroke s ->
  fromJson (match SerializeJSONProperty (StrokeData_toJs s) with
            | Some j => j
            | None => JNull
            end)
  = StrokeData_toJs (dropZeroSigns s).
Proof.
  intros H. destruct (finiteStroke_parts H) as (Hs & He & Hpts & Hpr).
  destruct s as [i pts st et [ps|]]; unfold StrokeData_toJs; simpl in *.
  - rewrite Hs, He. simpl.
    rewrite (points_roundtrip Hpts), (numbers_roundtrip Hpr). reflexivity.
  - rewrite Hs, He. simpl.
    rewrite (points_roundtrip Hpts). reflexivity.
Qed.

Lemma strokes_roundtrip (S : list StrokeData.t) :
  Forall finiteStroke S ->
  map fromJson
      (map (fun e => match SerializeJSONProperty e with
                     | Some j => j
                     | None => JNull
                     end) (map StrokeData_toJs S))
  = map StrokeData_toJs (map dropZeroSigns S).
Proof.
  induction 1 as [|s S Hs HS IH]; [reflexivity|].
  cbn [map]. rewrite (stroke_roundtrip_one Hs). f_equal. exact IH.
Qed.

Lemma validStroke_parts (s : StrokeData.t) :
  validStroke s ->
  isNaN (StrokeData.startTime s) = false
  /\ isNaN (StrokeData.endTime s) = false
  /\ Forall (fun p => isNaN (Point.x p) = false /\ isNaN (Point.y p) = false
                      /\ isNaN (Point.timestamp p) = false)
            (StrokeData.points s)
  /\ match StrokeData.pressure s with
     | Some ps => Forall (fun x => isNaN x = false) ps
     | None => True
     end.
Proof.
  unfold validStroke, numbersOf. intros H.
  inversion H as [|? ? Hs H1]; subst. inversion H1 as [|? ? He H2]; subst.
  apply Forall_app in H2. destruct H2 as [Hpts Hpr].
  repeat split; try assumption.
  - clear - Hpts. induction (StrokeData.points s) as [|p pts IH];
      [constructor|].
    simpl in Hpts.
    inversion Hpts as [|? ? Hx H1]; subst. inversion H1 as [|? ? Hy H2]; subst.
    inversion H2 as [|? ? Ht H3]; subst.
    constructor; [repeat split; assumption | apply IH; assumption].
  - destruct (StrokeData.pressure s); [assumption | exact I].
Qed.

(** The validator accepts the run-time object of every valid typed
    stroke. *)
Lemma isValidStrokeData_toJs (s : StrokeData.t) :
  validStroke s -> isValidStrokeData (StrokeData_toJs s) = true.
Proof.
  intros H. destruct (validStroke_parts H) as (Hs & He & Hpts & Hpr).
  destruct s as [i pts st et pr]; simpl in *.
  assert (Hp : forallb isValidPoint (map Point_toJs pts) = true).
  { clear - Hpts. induction Hpts as [|p pts (Hx & Hy & Ht) _ IH];
      [reflexivity|].
    cbn [map forallb]. rewrite IH, andb_true_r.
    unfold isValidPoint, Point_toJs. simpl. rewrite Hx, Hy, Ht. reflexivity. }
  unfold isValidStrokeData, StrokeData_toJs. simpl.
  rewrite Hs, He. simpl. rewrite Hp. simpl.
  destruct pr as [ps|]; simpl; [|reflexivity].
  assert (Hq : forallb (fun p => isTypeOf p TNumber && negb (Number_isNaN p))
                       (map VNumber ps) = true).
  { clear - Hpr. induction Hpr as [|x ps Hx _ IH]; [reflexivity|].
    simpl. rewrite Hx, IH. reflexivity. }
  rewrite Hq. reflexivity.
Qed.

Lemma finiteStroke_valid (s : StrokeData.t) :
  finiteStroke s -> validStroke (dropZeroSigns s).
Proof.
  intros H. destruct (finiteStroke_parts H) as (Hs & He & Hpts & Hpr).
  unfold validStroke, numbersOf. simpl.
  constructor; [rewrite isNaN_dropZeroSign; apply isFinite_not_NaN, Hs|].
  constructor; [rewrite isNaN_dropZeroSign; apply isFinite_not_NaN, He|].
  apply Forall_app. split.
  - clear - Hpts. induction Hpts as [|p pts (Hx & Hy & Ht) _ IH];
      [constructor|].
    simpl. repeat constructor; try assumption;
      rewrite isNaN_dropZeroSign; apply isFinite_not_NaN; assumption.
  - destruct (StrokeData.pressure s) as [ps|]; simpl; [|constructor].
    clear - Hpr. induction Hpr as [|x ps Hx _ IH]; [constructor|].
    simpl. constructor; [|exact IH].
    rewrite isNaN_dropZeroSign; apply isFinite_not_NaN; assumption.
Qed.

Lemma checkStrokes_all_valid (l : list JsValue) (i : nat) :
  forallb isValidStrokeData l = true -> checkStrokes i l = Normal tt.
Proof.
  revert i. induction l as [|s l IH]; intros i; simpl; [reflexivity|].
  rewrite andb_true_iff. intros [Hs Hl]. rewrite Hs. simpl. apply IH, Hl.
Qed.

Lemma dropZeroSigns_id (s : StrokeData.t) :
  noNegativeZero s -> dropZeroSigns s = s.
Proof.
  unfold noNegativeZero, numbersOf. intros H.
  inversion H as [|? ? Hs H1]; subst. inversion H1 as [|? ? He H2]; subst.
  apply Forall_app in H2. destruct H2 as [Hpts Hpr].
  destruct s as [i pts st et pr]; unfold dropZeroSigns; simpl in *.
  rewrite (dropZeroSign_id Hs), (dropZeroSign_id He).
  f_equal.
  - clear - Hpts. induction pts as [|[x y t] pts IH]; [reflexivity|].
    simpl in Hpts.
    inversion Hpts as [|? ? Hx H1]; subst. inversion H1 as [|? ? Hy H2]; subst.
    inversion H2 as [|? ? Ht H3]; subst.
    simpl. unfold dropZeroSignsPoint at 1. simpl.
    rewrite (dropZeroSign_id Hx), (dropZeroSign_id Hy), (dropZeroSign_id Ht).
    f_equal. apply IH. assumption.
  - destruct pr as [ps|]; [|reflexivity]. simpl. f_equal.
    clear - Hpr. induction Hpr as [|x ps Hx _ IH]; [reflexivity|].
    simpl. rewrite (dropZeroSign_id Hx), IH. reflexivity.
Qed.

(** C2, as the code has it.  [serialize S] is the text of a JSON document
    for every [S].  When every number of [S] is finite,
    [deserialize (serialize S)] returns the strokes of [S] with [-0] read
    back as [0]; it returns [S] itself, field for field, when no number of
    [S] is [-0]. *)
Theorem stroke_roundtrip (S : list StrokeData.t) :
  (exists document, serialize S = WellFormed document
                    /\ exists v, JSON_parse (serialize S) = Normal v)
  /\ (Forall finiteStroke S ->
      deserialize (serialize S)
      = Normal (map StrokeData_toJs (map dropZeroSigns S))
      /\ (Forall noNegativeZero S ->
          deserialize (serialize S) = Normal (map StrokeData_toJs S))).
Proof.
  split.
  - eexists. split; [reflexivity|]. eexists. reflexivity.
  - intros Hfin.
    assert (E : deserialize (serialize S)
                = Normal (map StrokeData_toJs (map dropZeroSigns S))).
    { unfold deserialize, serialize, JSON_stringify_array, JSON_parse.
      cbn [bind fromJson]. rewrite (strokes_roundtrip Hfin).
      rewrite checkStrokes_all_valid; [reflexivity|].
      apply forallb_forall. intros v Hv.
      apply in_map_iff in Hv. destruct Hv as (s' & <- & Hs').
      apply in_map_iff in Hs'. destruct Hs' as (s & <- & Hs).
      apply isValidStrokeData_toJs, finiteStroke_valid.
      rewrite Forall_forall in Hfin. apply Hfin, Hs. }
    split; [exact E|].
    intros Hz. rewrite E. do 2 f_equal.
    clear - Hz. induction Hz as [|s S Hs _ IH]; [reflexivity|].
    simpl. rewrite (dropZeroSigns_id Hs), IH. reflexivity.
Qed.

Lemma stroke_roundtrip_witness :
  deserialize (serialize [strokeSample])
  = Normal (map StrokeData_toJs [strokeSample]).
Proof.
  destruct (stroke_roundtrip [strokeSample]) as (_ & Hround).
  destruct Hround as (_ & Hexact).
  - repeat constructor.
  - apply Hexact. repeat constructor; discriminate.
Defined.

(** C2 as stated fails: a stroke that starts at [Infinity] is valid (a
    number that is not NaN, and the validator accepts its object), its
    start time is written [null], and reading the text back throws. *)
Lemma stroke_roundtrip_counterexample :
  Forall validStroke [strokeInfinity]
  /\ isValidStrokeData (StrokeData_toJs strokeInfinity) = true
  /\ deserialize (serialize [strokeInfinity])
     = Throw (Error (js "Invalid stroke data at index 0")).
Proof.
  split; [|split].
  - repeat constructor.
  - reflexivity.
  - reflexivity.
Qed.

Example serialize_strokeInfinity :
  serialize [strokeInfinity]
  = WellFormed (JArray [ JObject [ (js "id", JString (js "s2"));
                                   (js "points", JArray []);
                                   (js "startTime", JNull);
                                   (js "endTime", JNumber posZero) ] ]).
Proof. reflexivity. Qed.

Example roundtrip_empty_and_negative_zero :
  deserialize (serialize []) = Normal []
  /\ deserialize (serialize [StrokeData.mk (js "z") [] negZero posZero None])
     = Normal [StrokeData_toJs (StrokeData.mk (js "z") [] posZero posZero None)].
Proof. split; reflexivity. Qed.

(** ** Schema validation *)

Section ValidationFacts.

Variable Number_toString : JsNumber -> JsString.t.

Lemma appended_nil (st : Findings) : appended st ([], []) = st.
Proof. destruct st; unfold appended; simpl. rewrite !app_nil_r. reflexivity. Qed.

Lemma appended_assoc (a b c : Findings) :
  appended (appended a b) c = appended a (appended b c).
Proof. unfold appended; simpl. rewrite !app_assoc. reflexivity. Qed.

Lemma pushMissing_appended (st : Findings) (f : JsString.t) :
  pushMissing st f = appended st ([f], []).
Proof. unfold pushMissing, appended; simpl. rewrite app_nil_r. reflexivity. Qed.

Lemma pushInvalid_appended (st : Findings) (f r : JsString.t) :
  pushInvalid st f r = appended st ([], [mkInvalidField f r]).
Proof. unfold pushInvalid, appended; simpl. rewrite app_nil_r. reflexivity. Qed.

Lemma checkEnumerated_appended obj key allowed st :
  checkEnumerated obj key allowed st
  = appended st (checkEnumerated obj key allowed ([], [])).
Proof.
  unfold checkEnumerated.
  destruct (negb (isNonEmptyString (getProp obj key)));
    [apply pushMissing_appended|].
  destruct (negb (includesString allowed (asString (getProp obj key))));
    [apply pushInvalid_appended | symmetry; apply appended_nil].
Qed.

Lemma checkTags_appended obj st :
  checkTags obj st = appended st (checkTags obj ([], [])).
Proof.
  unfold checkTags.
  destruct (negb (isNonEmptyArray (getProp obj (js "tags"))));
    [apply pushMissing_appended|].
  match goal with |- context [0 <? ?n] => destruct (0 <? n) end;
    [apply pushInvalid_appended | symmetry; apply appended_nil].
Qed.

Lemma checkRating_appended obj st :
  checkRating obj st = appended st (checkRating obj ([], [])).
Proof.
  unfold checkRating.
  destruct (negb (isUndefined (getProp obj (js "rating"))));
    [|symmetry; apply appended_nil].
  match goal with |- context [if ?c then pushInvalid _ _ _ else _] =>
    destruct c end;
    [apply pushInvalid_appended | symmetry; apply appended_nil].
Qed.

Lemma checkFeatured_appended obj st :
  checkFeatured obj st = appended st (checkFeatured obj ([], [])).
Proof.
  unfold checkFeatured.
  match goal with |- context [if ?c then pushInvalid _ _ _ else _] =>
    destruct c end;
    [apply pushInvalid_appended | symmetry; apply appended_nil].
Qed.

Lemma checkStringFields_appended obj st :
  checkStringFields obj st = appended st (checkStringFields obj ([], [])).
Proof.
  unfold checkStringFields.
  generalize [js "id"; js "name"; js "description"; js "subcategory"; js "url"].
  intros fields. revert st.
  assert (H : forall st d,
             fold_left (fun st field =>
                          if negb (isNonEmptyString (getProp obj field))
                          then pushMissing st field else st)
                       fields (appended st d)
             = appended st
                 (fold_left (fun st field =>
                               if negb (isNonEmptyString (getProp obj field))
                               then pushMissing st field else st)
                            fields d)).
  { induction fields as [|f fields IH]; intros st d; simpl; [reflexivity|].
    destruct (negb (isNonEmptyString (getProp obj f))); [|apply IH].
    rewrite !pushMissing_appended, appended_assoc. apply IH. }
  intros st. rewrite <- H, appended_nil. reflexivity.
Qed.

Lemma checkPlatforms_appended obj st :
  checkPlatforms Number_toString obj st
  = (d <- checkPlatforms Number_toString obj ([], []) ;; Normal (appended st d)).
Proof.
  unfold checkPlatforms.
  destruct (negb (isNonEmptyArray (getProp obj (js "platforms")))); simpl;
    [rewrite pushMissing_appended; reflexivity|].
  match goal with |- context [0 <? ?n] => destruct (0 <? n) end; simpl;
    [|rewrite appended_nil; reflexivity].
  match goal with |- context [Array_join ?a ?b ?c] =>
    destruct (Array_join a b c) end; simpl;
    [rewrite pushInvalid_appended|]; reflexivity.
Qed.

(** The result of [validateResource] on an object, as the contributions of
    the single checks. *)
Lemma validateResource_object (obj : JsValue) :
  isNull obj = false -> isTypeOf obj TObject = true ->
  validateResource Number_toString obj
  = (plat <- checkPlatforms Number_toString obj ([], []) ;;
     let st :=
       appended (checkStringFields obj ([], []))
      (appended (checkEnumerated obj (js "category")
                   (map CategoryId_name CATEGORY_IDS) ([], []))
      (appended (checkEnumerated obj (js "difficulty")
                   (map DifficultyLevel_name DIFFICULTY_LEVELS) ([], []))
      (appended (checkEnumerated obj (js "priceType")
                   (map PriceType_name PRICE_TYPES) ([], []))
      (appended (checkTags obj ([], []))
      (appended plat
      (appended (checkRating obj ([], []))
                (checkFeatured obj ([], [])))))))) in
     Normal (mkResult ((length (fst st) =? 0) && (length (snd st) =? 0))
                      (fst st) (snd st))).
Proof.
  intros Hnull Hobj. unfold validateResource.
  rewrite Hnull, Hobj.
  replace (isUndefined obj) with false
    by (destruct obj; unfold isTypeOf in Hobj; simpl in *; congruence).
  cbn [orb negb].
  rewrite checkPlatforms_appended.
  destruct (checkPlatforms Number_toString obj ([], [])) as [plat|e];
    [|reflexivity].
  cbn [bind].
  rewrite (checkFeatured_appended obj), (checkRating_appended obj).
  rewrite (checkTags_appended obj).
  rewrite (checkEnumerated_appended obj (js "priceType")).
  rewrite (checkEnumerated_appended obj (js "difficulty")).
  rewrite (checkEnumerated_appended obj (js "category")).
  rewrite !appended_assoc. reflexivity.
Qed.

End ValidationFacts.



Lemma appended_empty (a b : Findings) :
  appended a b = ([], []) -> a = ([], []) /\ b = ([], []).
Proof.
  destruct a as [am ai], b as [bm bi]. unfold appended; simpl.
  intros H. injection H as Hm Hi.
  apply app_eq_nil in Hm. apply app_eq_nil in Hi.
  destruct Hm as [-> ->], Hi as [-> ->]. split; reflexivity.
Qed.

Section ValidationCases.

Variable Number_toString : JsNumber -> JsString.t.












End ValidationCases.

Section ValidationReports.

Variable Number_toString : JsNumber -> JsString.t.


Lemma getProp_object (obj : JsValue) (key : JsString.t) :
  getProp obj key <> VUndefined ->
  isNull obj = false /\ isTypeOf obj TObject = true.
Proof.
  destruct obj; simpl; intros H; try (exfalso; apply H; reflexivity).
  split; reflexivity.
Qed.






End ValidationReports.



Section ValidationExact.

Variable Number_toString : JsNumber -> JsString.t.




(** The checks of a record that passes validation all contribute
    nothing. *)
Lemma valid_contributions (obj : JsValue) :
  isNull obj = false -> isTypeOf obj TObject = true ->
  validateResource Number_toString obj = Normal (mkResult true [] []) ->
  checkStringFields obj ([], []) = ([], [])
  /\ checkEnumerated obj (js "category")
       (map CategoryId_name CATEGORY_IDS) ([], []) = ([], [])
  /\ checkEnumerated obj (js "difficulty")
       (map DifficultyLevel_name DIFFICULTY_LEVELS) ([], []) = ([], [])
  /\ checkEnumerated obj (js "priceType")
       (map PriceType_name PRICE_TYPES) ([], []) = ([], [])
  /\ checkTags obj ([], []) = ([], [])
  /\ checkPlatforms Number_toString obj ([], []) = Normal ([], [])
  /\ checkRating obj ([], []) = ([], [])
  /\ checkFeatured obj ([], []) = ([], []).
Proof.
  intros Hnull Hobj H.
  rewrite (validateResource_object Number_toString obj Hnull Hobj) in H.
  destruct (checkPlatforms Number_toString obj ([], [])) as [plat|e];
    [|discriminate].
  cbn [bind] in H. cbv zeta in H.
  assert (Hfields : forall r1 r2 : ResourceValidationResult,
             Normal r1 = Normal r2 ->
             missingFields r1 = missingFields r2
             /\ invalidFields r1 = invalidFields r2)
    by (intros r1 r2 Heq; injection Heq as ->; split; reflexivity).
  apply Hfields in H. cbn [missingFields invalidFields] in H.
  destruct H as [Hm Hi].
  match type of Hm with fst ?st = _ =>
    assert (Hst : st = ([], []))
      by (rewrite (surjective_pairing st), Hm, Hi; reflexivity)
  end.
  clear Hm Hi.
  repeat (apply appended_empty in Hst;
          let Ha := fresh "Ha" in destruct Hst as [Ha Hst]).
  subst plat. repeat split; assumption.
Qed.



End ValidationExact.




(** Other runs of the validator: the valid record; an object read from the
    text [{"platforms":[{"toString":1}]}], whose entry has no string
    conversion; a rating of 6; a non-object. *)
Example validateResource_runs :
  (forall nts,
     validateResource nts (VObject validRecord) = Normal (mkResult true [] []))
  /\ (forall nts,
        validateResource nts
          (fromJson (JObject [(js "platforms",
                               JArray [JObject [(js "toString", JNumber one)]])]))
        = Throw TypeError)
  /\ (forall nts, exists r,
        validateResource nts
          (VObject (setProp validRecord (js "rating")
                      (VNumber (S754_finite false 6755399441055744 (-50)))))
        = Normal r /\ invalidNames r = [js "rating"])
  /\ (forall nts,
        validateResource nts (VString (js "apps"))
        = Normal (mkResult false REQUIRED_RESOURCE_FIELDS [])).
Proof.
  repeat split; intros nts; try reflexivity.
  eexists. split; reflexivity.
Qed.

(** ** The run-time objects determine the typed strokes *)

Lemma map_injective {A B : Type} (f : A -> B) :
  (forall a b, f a = f b -> a = b) ->
  forall l m, map f l = map f m -> l = m.
Proof.
  intros Hf l. induction l as [|a l IH]; intros [|b m] H; simpl in H;
    try discriminate; [reflexivity|].
  injection H as Hab Hlm. f_equal; [apply Hf, Hab | apply IH, Hlm].
Qed.

Lemma Point_toJs_injective (p q : Point.t) : Point_toJs p = Point_toJs q -> p = q.
Proof.
  destruct p, q. unfold Point_toJs. simpl. intros H.
  injection H as -> -> ->. reflexivity.
Qed.

(** Equal run-time objects come from strokes that are equal field for
    field. *)
Lemma StrokeData_toJs_injective (s t : StrokeData.t) :
  StrokeData_toJs s = StrokeData_toJs t -> s = t.
Proof.
  destruct s as [i pts st et pr], t as [i' pts' st' et' pr'].
  unfold StrokeData_toJs. simpl. intros H.
  injection H as Hi Hpts Hst Het Hpr.
  apply (map_injective _ Point_toJs_injective) in Hpts. subst.
  f_equal.
  destruct pr as [ps|], pr' as [ps'|]; try discriminate; [|reflexivity].
  injection Hpr as Hps. f_equal.
  apply (map_injective VNumber); [|exact Hps].
  intros a b Hab. injection Hab as ->. reflexivity.
Qed.

(* ================================================================== *)
(** * Further properties of the filters, the search and the page *)
(* ================================================================== *)

Lemma filter_andb_comm {A : Type} (p q : A -> bool) (l : list A) :
  filter (fun a => p a && q a) l = filter (fun a => q a && p a) l.
Proof. apply filter_ext. intros a. apply andb_comm. Qed.

(** X1.  Filtering by category and subcategory at once is filtering by the
    one and then by the other, in either order. *)
Theorem filterByCategoryAndSubcategory_composes
    (R : list Resource.t) (c : JsString.t) (s : SubcategoryId) :
  filterByCategoryAndSubcategory R c s
  = filterBySubcategory (filterByCategory R c) s
  /\ filterByCategoryAndSubcategory R c s
     = filterByCategory (filterBySubcategory R s) c.
Proof.
  unfold filterByCategoryAndSubcategory, filterBySubcategory, filterByCategory.
  rewrite !filter_filter. split; [reflexivity | apply filter_andb_comm].
Qed.

Lemma length_zero_nil {A : Type} (l : list A) :
  (0 <? length l) = false -> l = [].
Proof. destruct l; simpl; [reflexivity | discriminate]. Qed.

Lemma searchResources_blank (R : list Resource.t) (q : JsString.t) :
  JsString.trim q = [] -> searchResources R q = R.
Proof. intros H. unfold searchResources. rewrite H. reflexivity. Qed.

(** X2.  When [hasActiveFilters] says no, neither the combinator nor the
    search nor the page's pipeline leaves a record out. *)
Theorem no_active_filters_identity
    (R : list Resource.t) (f : ActiveFilters.t) :
  hasActiveFilters f = false ->
  combineFilters R f = R
  /\ searchResources R (ActiveFilters.search f) = R
  /\ filteredResources R f = R.
Proof.
  unfold hasActiveFilters. rewrite !orb_false_iff.
  intros [[[Hd Hp] Hl] Hs].
  assert (Ec : combineFilters R f = R).
  { unfold combineFilters. rewrite Hd, Hp, Hl. reflexivity. }
  split; [exact Ec|]. split.
  - apply searchResources_blank, length_zero_nil, Hs.
  - unfold filteredResources. rewrite Hs. exact Ec.
Qed.

Lemma no_active_filters_identity_witness :
  filteredResources [recordA; recordB] createEmptyFilters = [recordA; recordB].
Proof.
  apply (no_active_filters_identity [recordA; recordB] createEmptyFilters).
  reflexivity.
Defined.

Lemma combineFilters_filter (R : list Resource.t) (f : ActiveFilters.t) :
  combineFilters R f
  = filter (fun r => forallb (fun d => dimensionTest f d r)
                             [ByDifficulty; ByPriceType; ByPlatform]) R.
Proof. rewrite combineFilters_applyInOrder. apply applyInOrder_filter. Qed.

Lemma filter_idempotent {A : Type} (p : A -> bool) (l : list A) :
  filter p (filter p l) = filter p l.
Proof.
  rewrite filter_filter. apply filter_ext. intros a. destruct (p a); reflexivity.
Qed.

(** X3.  Combining filters twice changes nothing more, and the combinator
    works record by record: on a concatenation it gives the concatenation
    of the results. *)
Theorem combineFilters_idempotent_and_local
    (R1 R2 : list Resource.t) (f : ActiveFilters.t) :
  combineFilters (combineFilters R1 f) f = combineFilters R1 f
  /\ combineFilters (R1 ++ R2) f = combineFilters R1 f ++ combineFilters R2 f.
Proof.
  rewrite !combineFilters_filter. split.
  - apply filter_idempotent.
  - apply filter_app.
Qed.

Lemma Subsequence_nil_l {A : Type} (l : list A) : Subsequence [] l.
Proof. induction l; constructor; assumption. Qed.

Lemma existsb_filter_length {A : Type} (p : A -> bool) (l : list A) :
  existsb p l = (0 <? length (filter p l)).
Proof.
  induction l as [|a l IH]; simpl; [reflexivity|].
  destruct (p a); simpl; [reflexivity | exact IH].
Qed.

(** X4.  The tags [getSearchMatchLocations] lists are tags of the record,
    in their order.  For a blank query it marks no location, although
    [resourceMatchesQuery] holds; for any other query the record matches
    exactly when some location is marked or some tag is listed. *)
Theorem getSearchMatchLocations_consistent (r : Resource.t) (q : JsString.t) :
  Subsequence (MatchLocations.tags (getSearchMatchLocations r q))
              (Resource.tags r)
  /\ (isBlank q ->
      resourceMatchesQuery r q = true
      /\ getSearchMatchLocations r q
         = MatchLocations.mk false false false false [])
  /\ (~ isBlank q ->
      resourceMatchesQuery r q
      = MatchLocations.name (getSearchMatchLocations r q)
        || MatchLocations.nameJa (getSearchMatchLocations r q)
        || MatchLocations.description (getSearchMatchLocations r q)
        || MatchLocations.descriptionLong (getSearchMatchLocations r q)
        || (0 <? length (MatchLocations.tags (getSearchMatchLocations r q)))).
Proof.
  unfold getSearchMatchLocations, resourceMatchesQuery.
  destruct (length (JsString.toLowerCase (JsString.trim q)) =? 0) eqn:E.
  - split; [apply Subsequence_nil_l|].
    + split; [intros _; split; reflexivity|].
      intros Hq. exfalso. apply Hq, trim_nil_iff.
      apply Nat.eqb_eq in E. apply toLowerCase_nil.
      destruct (JsString.toLowerCase (JsString.trim q));
        [reflexivity | discriminate].
  - split; [apply filter_Subsequence|]. split.
    + intros Hq. apply trim_nil_iff in Hq. rewrite Hq in E. discriminate.
    + intros _. cbn [MatchLocations.name MatchLocations.nameJa
                     MatchLocations.description MatchLocations.descriptionLong
                     MatchLocations.tags].
      rewrite <- existsb_filter_length.
      destruct (JsString.includes (JsString.toLowerCase (Resource.name r)) _);
        [reflexivity|].
      destruct (truthy (Resource.nameJa r)); cbn [andb orb];
        [destruct (JsString.includes
                     (JsString.toLowerCase (textOf (Resource.nameJa r))) _);
           [reflexivity|]|];
        (destruct (JsString.includes
                     (JsString.toLowerCase (Resource.description r)) _);
           [reflexivity|]);
        (destruct (truthy (Resource.descriptionLong r)); cbn [andb orb];
           [destruct (JsString.includes
                        (JsString.toLowerCase
                           (textOf (Resource.descriptionLong r))) _);
              [reflexivity|]|]);
        destruct (existsb _ (Resource.tags r)); reflexivity.
Qed.

Lemma getSearchMatchLocations_consistent_witness :
  resourceMatchesQuery recordA (js "srs")
  = MatchLocations.name (getSearchMatchLocations recordA (js "srs"))
    || MatchLocations.nameJa (getSearchMatchLocations recordA (js "srs"))
    || MatchLocations.description (getSearchMatchLocations recordA (js "srs"))
    || MatchLocations.descriptionLong
         (getSearchMatchLocations recordA (js "srs"))
    || (0 <? length (MatchLocations.tags
                       (getSearchMatchLocations recordA (js "srs")))).
Proof.
  apply (getSearchMatchLocations_consistent recordA (js "srs")).
  intros H. inversion H. discriminate.
Defined.

Lemma guard_spec (names : list JsString.t) (v : JsValue) :
  isTypeOf v TString && includesString names (asString v) = true
  <-> exists s, v = VString s /\ In s names.
Proof.
  destruct v; simpl; try (split; [discriminate | intros (t & E & _); discriminate]).
  rewrite includesString_In. split.
  - intros H. exists s. split; [reflexivity | exact H].
  - intros (t & E & H). injection E as <-. exact H.
Qed.

(** X5.  Each type guard accepts exactly the strings of its union type: the
    constant arrays list every member. *)
Theorem type_guards_exact (v : JsValue) :
  (isValidDifficulty v = true <-> exists d, v = VString (DifficultyLevel_name d))
  /\ (isValidPriceType v = true <-> exists p, v = VString (PriceType_name p))
  /\ (isValidPlatform v = true <-> exists p, v = VString (Platform_name p))
  /\ (isValidCategoryId v = true <-> exists c, v = VString (CategoryId_name c)).
Proof.
  unfold isValidDifficulty, isValidPriceType, isValidPlatform,
    isValidCategoryId.
  rewrite !guard_spec.
  repeat split.
  - intros (s & -> & H). apply in_map_iff in H.
    destruct H as (d & <- & _). exists d. reflexivity.
  - intros (d & ->). eexists. split; [reflexivity|].
    apply in_map. destruct d; simpl; tauto.
  - intros (s & -> & H). apply in_map_iff in H.
    destruct H as (d & <- & _). exists d. reflexivity.
  - intros (d & ->). eexists. split; [reflexivity|].
    apply in_map. destruct d; simpl; tauto.
  - intros (s & -> & H). apply in_map_iff in H.
    destruct H as (d & <- & _). exists d. reflexivity.
  - intros (d & ->). eexists. split; [reflexivity|].
    apply in_map. destruct d; simpl; tauto.
  - intros (s & -> & H). apply in_map_iff in H.
    destruct H as (d & <- & _). exists d. reflexivity.
  - intros (d & ->). eexists. split; [reflexivity|].
    apply in_map. destruct d; simpl; tauto.
Qed.

Lemma forallb_filter_negb {A : Type} (p : A -> bool) (l : list A) :
  forallb p l = true <-> filter (fun a => negb (p a)) l = [].
Proof.
  induction l as [|a l IH]; simpl; [tauto|].
  destruct (p a); simpl; [exact IH|]. split; discriminate.
Qed.

(** ** Batch validation *)

Section ValidateManyFacts.

Variable Number_toString : JsNumber -> JsString.t.

Lemma validate_entries (rs : list JsValue) (i0 : nat) :
  (exists es,
     sequence (mapWithIndex
                 (fun resource index =>
                    r <- validateResource Number_toString resource ;;
                    Normal (mkEntry index r)) i0 rs) = Normal es
     /\ (forall x, In x rs ->
           exists res, validateResource Number_toString x = Normal res)
     /\ forall i res,
          In (mkEntry i res) es <->
          exists k x, i = i0 + k /\ nth_error rs k = Some x
                      /\ validateResource Number_toString x = Normal res)
  \/ (exists e x,
        sequence (mapWithIndex
                    (fun resource index =>
                       r <- validateResource Number_toString resource ;;
                       Normal (mkEntry index r)) i0 rs) = Throw e
        /\ In x rs /\ validateResource Number_toString x = Throw e).
Proof.
  revert i0. induction rs as [|x rs IH]; intros i0; cbn [mapWithIndex sequence].
  - left. exists []. split; [reflexivity|]. split; [intros x []|].
    intros i res. split; [contradiction|].
    intros (k & y & _ & Hk & _). destruct k; discriminate.
  - destruct (validateResource Number_toString x) as [r|e] eqn:Ex; cbn [bind].
    2:{ right. exists e, x. split; [reflexivity|].
        split; [left; reflexivity | exact Ex]. }
    destruct (IH (S i0)) as [(es & -> & Hall & Hes) | (e & y & -> & Hy & Ey)];
      cbn [bind].
    + left. exists (mkEntry i0 r :: es). split; [reflexivity|]. split.
      { intros y [<- | Hy]; [eexists; exact Ex | apply Hall, Hy]. }
      intros i res. cbn [In]. rewrite Hes. split.
      * intros [E | (k & y & -> & Hk & Hy)].
        -- injection E as <- <-. exists 0, x.
           split; [lia|]. split; [reflexivity | exact Ex].
        -- exists (S k), y. split; [lia|]. split; assumption.
      * intros ([|k] & y & -> & Hk & Hy).
        -- left. simpl in Hk. injection Hk as <-.
           rewrite Ex in Hy. injection Hy as <-.
           rewrite Nat.add_0_r. reflexivity.
        -- right. exists k, y. split; [lia|]. split; assumption.
    + right. exists e, y. split; [reflexivity|].
      split; [right; exact Hy | exact Ey].
Qed.

(** X6.  [validateResources] throws exactly when [validateResource] throws
    on one of the records.  When it returns, [valid] holds exactly when
    [results] is empty, and [results] holds exactly the records that fail,
    each under its index in the input and with the result
    [validateResource] gives it. *)
Theorem validateResources_reports_failures (rs : list JsValue) :
  ((exists e, validateResources Number_toString rs = Throw e) <->
   (exists x e, In x rs /\ validateResource Number_toString x = Throw e))
  /\ (forall report,
        validateResources Number_toString rs = Normal report ->
        (valid report = true <-> results report = [])
        /\ (forall i res,
              In (mkEntry i res) (results report) <->
              exists x, nth_error rs i = Some x
                        /\ validateResource Number_toString x = Normal res
                        /\ success res = false)).
Proof.
  unfold validateResources.
  destruct (validate_entries rs 0)
    as [(es & -> & Hall & Hes) | (e & x & -> & Hx & Ex)]; cbn [bind].
  - split.
    + split; [intros (e & H); discriminate|].
      intros (x & e & Hx & Ex).
      destruct (Hall x Hx) as (res & Eres). congruence.
    + intros report H. injection H as <-. cbn [valid results]. split.
      * apply forallb_filter_negb.
      * intros i res. rewrite filter_In, Hes. cbn [result]. split.
        -- intros ((k & x & -> & Hk & Hx) & Hs). exists x.
           split; [exact Hk|]. split; [exact Hx|].
           destruct (success res); [discriminate | reflexivity].
        -- intros (x & Hk & Hx & Hs). split.
           ++ exists i, x. split; [reflexivity|]. split; assumption.
           ++ rewrite Hs. reflexivity.
  - split.
    + split; [|intros _; eexists; reflexivity].
      intros _. exists x, e. split; assumption.
    + intros report H. discriminate.
Qed.

End ValidateManyFacts.

Lemma validateResources_reports_failures_witness :
  exists x,
    nth_error [VObject validRecord; VNull] 1 = Some x
    /\ validateResource noNumberText x
       = Normal (mkResult false REQUIRED_RESOURCE_FIELDS [])
    /\ success (mkResult false REQUIRED_RESOURCE_FIELDS []) = false.
Proof.
  destruct (validateResources_reports_failures noNumberText
              [VObject validRecord; VNull]) as [_ Hreport].
  destruct (Hreport (mkReport false
                       [mkEntry 1 (mkResult false REQUIRED_RESOURCE_FIELDS [])])
                    eq_refl) as [_ Hentries].
  apply Hentries. simpl. left. reflexivity.
Defined.

(** ** The resources page *)

Lemma filteredResources_filter (R : list Resource.t) (f : ActiveFilters.t) :
  filteredResources R f
  = filter (fun r =>
              resourceMatchesQuery r (ActiveFilters.search f)
              && forallb (fun d => dimensionTest f d r)
                         [ByDifficulty; ByPriceType; ByPlatform]) R.
Proof.
  unfold filteredResources. cbv zeta.
  assert (E : (if 0 <? length (JsString.trim (ActiveFilters.search f))
               then searchResources R (ActiveFilters.search f) else R)
              = searchResources R (ActiveFilters.search f)).
  { destruct (0 <? length (JsString.trim (ActiveFilters.search f))) eqn:E;
      [reflexivity|].
    symmetry. apply searchResources_blank, length_zero_nil, E. }
  rewrite E, combineFilters_filter, searchResources_as_filter.
  apply filter_filter.
Qed.

(** X7.  What the page shows is the search followed by the combinator, and
    as well the combinator followed by the search; it is a subsequence of
    the resources the page was given, and each record shown matches the
    query and passes every dimension's test. *)
Theorem filteredResources_pipeline (R : list Resource.t) (f : ActiveFilters.t) :
  filteredResources R f
  = combineFilters (searchResources R (ActiveFilters.search f)) f
  /\ filteredResources R f
     = searchResources (combineFilters R f) (ActiveFilters.search f)
  /\ Subsequence (filteredResources R f) R
  /\ (forall r, In r (filteredResources R f) ->
        resourceMatchesQuery r (ActiveFilters.search f) = true
        /\ In r (combineFilters R f)).
Proof.
  rewrite filteredResources_filter.
  split; [|split; [|split]].
  - rewrite combineFilters_filter, searchResources_as_filter.
    symmetry. apply filter_filter.
  - rewrite searchResources_as_filter, combineFilters_filter, filter_filter.
    apply filter_andb_comm.
  - apply filter_Subsequence.
  - intros r Hr. apply filter_In in Hr. destruct Hr as [HR Ht].
    apply andb_true_iff in Ht. destruct Ht as [Hq Hd].
    split; [exact Hq|]. rewrite combineFilters_filter.
    apply filter_In. split; assumption.
Qed.

Lemma filteredResources_pipeline_witness :
  resourceMatchesQuery recordA (js "anki") = true
  /\ In recordA (combineFilters [recordA; recordB] beginnerOnly).
Proof.
  apply (filteredResources_pipeline [recordA; recordB]
           (ActiveFilters.mk [beginner] [] [] (js "anki"))).
  simpl. left. reflexivity.
Defined.

Lemma Platform_eqb_sym (a b : Platform) : Platform_eqb a b = Platform_eqb b a.
Proof. destruct a, b; reflexivity. Qed.

(** X8.  The count the page shows beside an option is the number of
    resources that selecting that option alone would leave; the difficulty
    counts add up to the number of resources, and so do the price type
    counts. *)
Theorem availableFilters_counts (R : list Resource.t) :
  availableDifficulties R
  = map (fun level => mkOption level (length (filterByDifficulty R [level])))
        DIFFICULTY_LEVELS
  /\ availablePriceTypes R
     = map (fun type => mkOption type (length (filterByPriceType R [type])))
           PRICE_TYPES
  /\ availablePlatforms R
     = map (fun platform =>
              mkOption platform (length (filterByPlatform R [platform])))
           PLATFORMS
  /\ sum (optionCounts (availableDifficulties R)) = length R
  /\ sum (optionCounts (availablePriceTypes R)) = length R.
Proof.
  split; [|split; [|split; [|split]]].
  - unfold availableDifficulties, filterByDifficulty. apply map_ext.
    intros level. do 2 f_equal. apply filter_ext. intros r. simpl.
    rewrite orb_false_r. reflexivity.
  - unfold availablePriceTypes, filterByPriceType. apply map_ext.
    intros type. do 2 f_equal. apply filter_ext. intros r. simpl.
    rewrite orb_false_r. reflexivity.
  - unfold availablePlatforms, filterByPlatform. apply map_ext.
    intros platform. do 2 f_equal. apply filter_ext. intros r.
    induction (Resource.platforms r) as [|p ps IH]; simpl; [reflexivity|].
    rewrite orb_false_r, IH, Platform_eqb_sym. reflexivity.
  - unfold optionCounts, availableDifficulties, sum. simpl.
    induction R as [|r R IH]; simpl; [reflexivity|].
    destruct (Resource.difficulty r); simpl; lia.
  - unfold optionCounts, availablePriceTypes, sum. simpl.
    induction R as [|r R IH]; simpl; [reflexivity|].
    destruct (Resource.priceType r); simpl; lia.
Qed.

Lemma Subsequence_firstn {A : Type} (n : nat) (l : list A) :
  Subsequence (firstn n l) l.
Proof.
  revert n. induction l as [|a l IH]; intros [|n]; simpl.
  - constructor.
  - constructor.
  - apply Subsequence_nil_l.
  - constructor. apply IH.
Qed.

Lemma In_firstn {A : Type} (n : nat) (l : list A) (a : A) :
  In a (firstn n l) -> In a l.
Proof. apply Subsequence_In, Subsequence_firstn. Qed.

Lemma CategoryId_name_injective (a b : CategoryId) :
  CategoryId_name a = CategoryId_name b -> a = b.
Proof.
  destruct a, b; intros H; try reflexivity; vm_compute in H; discriminate.
Qed.

(** X9.  The related resources are at most four records of the page's
    resources, in their order; none has the id of the selected record, and
    each has its category or shares a tag with it.  Nothing is selected,
    nothing is related. *)
Theorem relatedResources_sound
    (selected : Resource.t) (R : list Resource.t) :
  length (relatedResources (Some selected) R) <= 4
  /\ Subsequence (relatedResources (Some selected) R) R
  /\ (forall r, In r (relatedResources (Some selected) R) ->
        Resource.id r <> Resource.id selected
        /\ (Resource.category r = Resource.category selected
            \/ exists tag, In tag (Resource.tags r)
                           /\ In tag (Resource.tags selected)))
  /\ relatedResources None R = [].
Proof.
  unfold relatedResources. split; [|split; [|split]].
  - apply firstn_le_length.
  - eapply Subsequence_trans; [apply Subsequence_firstn | apply filter_Subsequence].
  - intros r Hr. apply In_firstn in Hr. apply filter_In in Hr.
    destruct Hr as [_ Ht]. apply andb_true_iff in Ht. destruct Ht as [Hid Hrel].
    split.
    + apply JsString_eqb_neq. destruct (JsString.eqb _ _); [discriminate|reflexivity].
    + apply orb_true_iff in Hrel. destruct Hrel as [Hc | Ht].
      * left. apply CategoryId_name_injective, JsString_eqb_eq. exact Hc.
      * right. apply existsb_exists in Ht. destruct Ht as (tag & Htag & Hin).
        exists tag. split; [exact Htag | apply includesString_In; exact Hin].
  - reflexivity.
Qed.

Lemma relatedResources_sound_witness :
  Resource.id recordB <> Resource.id recordA
  /\ (Resource.category recordB = Resource.category recordA
      \/ exists tag, In tag (Resource.tags recordB)
                     /\ In tag (Resource.tags recordA)).
Proof.
  apply (relatedResources_sound recordA [recordA; recordB; recordStrasse]).
  simpl. left. reflexivity.
Defined.

(** ** What a successful validation says about the object *)

Lemma isNonEmptyString_spec (v : JsValue) :
  isNonEmptyString v = true <-> nonBlankString v.
Proof.
  unfold nonBlankString.
  destruct v; simpl; try (split; [discriminate | intros (t & E & _); discriminate]).
  split.
  - intros H. exists s. split; [reflexivity|].
    intros E. rewrite E in H. discriminate.
  - intros (t & E & H). injection E as <-.
    destruct (JsString.trim s); [congruence | reflexivity].
Qed.

Lemma checkStringFields_contribution (obj : JsValue) :
  checkStringFields obj ([], [])
  = (filter (fun f => negb (isNonEmptyString (getProp obj f)))
            [js "id"; js "name"; js "description"; js "subcategory"; js "url"],
     []).
Proof.
  unfold checkStringFields.
  generalize [js "id"; js "name"; js "description"; js "subcategory"; js "url"].
  intros fields.
  assert (H : forall m,
             fold_left (fun st field =>
                          if negb (isNonEmptyString (getProp obj field))
                          then pushMissing st field else st) fields (m, [])
             = (m ++ filter (fun f => negb (isNonEmptyString (getProp obj f)))
                            fields, [])).
  { induction fields as [|f fields IH]; intros m; simpl.
    - rewrite app_nil_r. reflexivity.
    - destruct (negb (isNonEmptyString (getProp obj f))).
      + unfold pushMissing. simpl. rewrite IH, <- app_assoc. reflexivity.
      + apply IH. }
  apply (H []).
Qed.

Lemma checkStringFields_ok (obj : JsValue) :
  checkStringFields obj ([], []) = ([], [])
  <-> forall f, In f [js "id"; js "name"; js "description"; js "subcategory";
                      js "url"] -> nonBlankString (getProp obj f).
Proof.
  rewrite checkStringFields_contribution.
  set (fields := [js "id"; js "name"; js "description"; js "subcategory";
                  js "url"]).
  split.
  - intros H f Hf. apply isNonEmptyString_spec.
    assert (E : filter (fun f => negb (isNonEmptyString (getProp obj f))) fields
                = []) by congruence.
    apply forallb_filter_negb in E. rewrite forallb_forall in E.
    apply E, Hf.
  - intros H. f_equal. apply forallb_filter_negb, forallb_forall.
    intros f Hf. apply isNonEmptyString_spec, H, Hf.
Qed.

Lemma checkEnumerated_ok (obj : JsValue) (key : JsString.t)
    (allowed : list JsString.t) :
  checkEnumerated obj key allowed ([], []) = ([], [])
  <-> oneOf allowed (getProp obj key).
Proof.
  unfold checkEnumerated, oneOf.
  destruct (isNonEmptyString (getProp obj key)) eqn:E; cbn [negb].
  - apply isNonEmptyString_spec in E. destruct E as (s & Es & Hs).
    rewrite Es. cbn [asString].
    destruct (includesString allowed s) eqn:Ei; cbn [negb].
    + split; [|reflexivity]. intros _. exists s.
      split; [reflexivity|]. split; [exact Hs|].
      apply includesString_In, Ei.
    + split; [discriminate|]. intros (t & Et & _ & Hin).
      injection Et as <-. apply includesString_In in Hin. congruence.
  - split; [discriminate|]. intros (s & Es & Hs & _).
    assert (isNonEmptyString (getProp obj key) = true)
      by (apply isNonEmptyString_spec; exists s; split; assumption).
    congruence.
Qed.

Lemma filter_nil_Forall {A : Type} (p : A -> bool) (l : list A) :
  filter p l = [] <-> Forall (fun a => p a = false) l.
Proof.
  induction l as [|a l IH]; simpl.
  - split; [constructor | reflexivity].
  - destruct (p a) eqn:E.
    + split; [discriminate|]. intros H. inversion H; congruence.
    + rewrite IH. split.
      * intros H. constructor; assumption.
      * intros H. inversion H; assumption.
Qed.

Lemma Forall_iff {A : Type} (P Q : A -> Prop) (l : list A) :
  (forall a, P a <-> Q a) -> (Forall P l <-> Forall Q l).
Proof.
  intros H. split; intros HF; eapply Forall_impl; try eassumption;
    intros a; apply H.
Qed.

Lemma checkTags_ok (obj : JsValue) :
  checkTags obj ([], []) = ([], [])
  <-> exists tags, getProp obj (js "tags") = VArray tags /\ tags <> []
                   /\ Forall nonBlankString tags.
Proof.
  unfold checkTags.
  destruct (getProp obj (js "tags")) as [| | | | | |tags|];
    try (cbn; split; [discriminate | intros (t & E & _); discriminate]).
  cbn [isNonEmptyArray asArray].
  destruct tags as [|t0 ts]; cbn [length Nat.ltb Nat.leb negb];
    [split; [discriminate | intros (t & E & H & _); injection E as <-; congruence]|].
  match goal with |- context [filter ?p ?l] =>
    set (bad := p); set (tags := l) end.
  assert (Hbad : forall tag, bad tag = false <-> nonBlankString tag).
  { intros tag. rewrite <- isNonEmptyString_spec. unfold bad.
    destruct tag; unfold isTypeOf, isNonEmptyString; cbn [typeOf asString negb orb];
      try (split; discriminate).
    destruct (JsString.trim s); simpl; split; intros H;
      (discriminate || reflexivity). }
  destruct (filter bad tags) as [|b bs] eqn:Ef; cbn [length Nat.ltb Nat.leb].
  - split; [|reflexivity]. intros _. exists tags.
    split; [reflexivity|]. split; [discriminate|].
    apply filter_nil_Forall in Ef.
    eapply (Forall_iff _ _ _ Hbad). exact Ef.
  - split; [discriminate|]. intros (t & E & _ & H). injection E as <-.
    apply (Forall_iff _ _ _ Hbad) in H. apply filter_nil_Forall in H.
    congruence.
Qed.

Section SuccessfulValidation.

Variable Number_toString : JsNumber -> JsString.t.

Lemma checkPlatforms_ok (obj : JsValue) :
  checkPlatforms Number_toString obj ([], []) = Normal ([], [])
  <-> exists ps, getProp obj (js "platforms") = VArray ps /\ ps <> []
                 /\ Forall (fun p => exists s,
                                p = VString s
                                /\ In s (map Platform_name PLATFORMS)) ps.
Proof.
  unfold checkPlatforms.
  destruct (getProp obj (js "platforms")) as [| | | | | |ps|];
    try (cbn; split; [discriminate | intros (t & E & _); discriminate]).
  cbn [isNonEmptyArray asArray].
  destruct ps as [|p0 ps0]; cbn [length Nat.ltb Nat.leb negb];
    [split; [discriminate | intros (t & E & H & _); injection E as <-; congruence]|].
  match goal with |- context [filter ?p ?l] =>
    set (bad := p); set (ps := l) end.
  assert (Hbad : forall p, bad p = false
                           <-> exists s, p = VString s
                                         /\ In s (map Platform_name PLATFORMS)).
  { intros p. unfold bad.
    destruct p; unfold isTypeOf; cbn [typeOf asString negb orb];
      try (split; [discriminate | intros (t & E & _); discriminate]).
    rewrite negb_false_iff, includesString_In. split.
    - intros H. exists s. split; [reflexivity | exact H].
    - intros (t & E & H). injection E as <-. exact H. }
  destruct (filter bad ps) as [|b bs] eqn:Ef; cbn [length Nat.ltb Nat.leb].
  - split; [|reflexivity]. intros _. exists ps.
    split; [reflexivity|]. split; [discriminate|].
    apply filter_nil_Forall in Ef.
    eapply (Forall_iff _ _ _ Hbad). exact Ef.
  - split.
    + destruct (Array_join Number_toString (js ", ") (b :: bs)); cbn [bind];
        discriminate.
    + intros (t & E & _ & H). injection E as <-.
      apply (Forall_iff _ _ _ Hbad) in H. apply filter_nil_Forall in H.
      congruence.
Qed.

Lemma checkRating_ok (obj : JsValue) :
  checkRating obj ([], []) = ([], [])
  <-> getProp obj (js "rating") = VUndefined
      \/ exists x, getProp obj (js "rating") = VNumber x
                   /\ SFltb x one = false /\ SFltb five x = false.
Proof.
  unfold checkRating.
  destruct (getProp obj (js "rating")) as [| | |x| | | |];
    try (cbn; split; [discriminate
                     | intros [E | (t & E & _)]; discriminate]).
  - cbn. split; [intros _; left; reflexivity | reflexivity].
  - unfold isTypeOf. cbn [typeOf isUndefined negb orb].
    destruct (SFltb x one) eqn:E1; cbn [orb].
    + split; [discriminate|]. intros [E | (t & E & H1 & _)]; [discriminate|].
      injection E as <-. congruence.
    + destruct (SFltb five x) eqn:E5.
      * split; [discriminate|]. intros [E | (t & E & _ & H5)]; [discriminate|].
        injection E as <-. congruence.
      * split; [|reflexivity]. intros _. right. exists x.
        repeat split; assumption.
Qed.

Lemma checkFeatured_ok (obj : JsValue) :
  checkFeatured obj ([], []) = ([], [])
  <-> getProp obj (js "featured") = VUndefined
      \/ exists b, getProp obj (js "featured") = VBoolean b.
Proof.
  unfold checkFeatured.
  destruct (getProp obj (js "featured")) as [| |b| | | | |];
    try (cbn; split; [discriminate | intros [E | (t & E)]; discriminate]).
  - cbn. split; [intros _; left; reflexivity | reflexivity].
  - cbn. split; [|reflexivity]. intros _. right. exists b. reflexivity.
Qed.

Lemma validateResource_success (obj : JsValue) (r : ResourceValidationResult) :
  validateResource Number_toString obj = Normal r -> success r = true ->
  isNull obj = false /\ isTypeOf obj TObject = true
  /\ r = mkResult true [] [].
Proof.
  unfold validateResource.
  destruct (isNull obj) eqn:En; [cbn; intros H; injection H as <-; discriminate|].
  destruct (isUndefined obj) eqn:Eu;
    [cbn; intros H; injection H as <-; discriminate|].
  destruct (isTypeOf obj TObject) eqn:Eo;
    [|cbn; intros H; injection H as <-; discriminate].
  cbn [orb negb].
  match goal with |- context [checkPlatforms _ _ ?st] =>
    destruct (checkPlatforms Number_toString obj st) as [plat|e] end;
    [|discriminate].
  cbn [bind]. cbv zeta.
  match goal with |- Normal (mkResult _ (fst ?st) _) = _ -> _ =>
    generalize st end.
  intros [m i] H Hs. injection H as <-. cbn [success fst snd] in *.
  apply andb_true_iff in Hs. destruct Hs as [Hm Hi].
  destruct m; [|discriminate]. destruct i; [|discriminate].
  repeat split.
Qed.

(** X10.  [validateResource] returns success exactly for the objects whose
    [id], [name], [description], [subcategory] and [url] are non-blank
    strings, whose [category], [difficulty] and [priceType] are names of
    their enumerations, whose [tags] is a non-empty array of non-blank
    strings, whose [platforms] is a non-empty array of platform names,
    whose [rating], if there is one, is a number neither below 1 nor above
    5, and whose [featured], if there is one, is a boolean. *)
Theorem validateResource_success_iff (obj : JsValue) :
  (exists r, validateResource Number_toString obj = Normal r
             /\ success r = true)
  <-> WellFormedResource obj.
Proof.
  unfold WellFormedResource.
  rewrite <- checkStringFields_ok, <- !checkEnumerated_ok, <- checkTags_ok,
    <- checkPlatforms_ok, <- checkRating_ok, <- checkFeatured_ok.
  split.
  - intros (r & Hr & Hs).
    destruct (validateResource_success obj Hr Hs) as (Hnull & Hobj & ->).
    destruct (@valid_contributions Number_toString obj Hnull Hobj Hr)
      as (H1 & H2 & H3 & H4 & H5 & H6 & H7 & H8).
    repeat split; assumption.
  - intros (H1 & H2 & H3 & H4 & H5 & H6 & H7 & H8).
    assert (Hshape : isNull obj = false /\ isTypeOf obj TObject = true).
    { apply (@getProp_object obj (js "category")).
      apply checkEnumerated_ok in H2. destruct H2 as (s & E & _).
      rewrite E. discriminate. }
    destruct Hshape as [Hnull Hobj].
    exists (mkResult true [] []). split; [|reflexivity].
    rewrite (validateResource_object Number_toString obj Hnull Hobj).
    rewrite H1, H2, H3, H4, H5, H6, H7, H8. reflexivity.
Qed.

End SuccessfulValidation.

Example validateResource_accepts_NaN_rating :
  forall nts,
    validateResource nts (VObject (setProp validRecord (js "rating") (VNumber NaN)))
    = Normal (mkResult true [] []).
Proof. intros nts. reflexivity. Qed.

Lemma validateResource_success_iff_witness : WellFormedResource (VObject validRecord).
Proof.
  apply (validateResource_success_iff noNumberText (VObject validRecord)).
  eexists. split; reflexivity.
Defined.

(** ** Which strokes survive the round trip *)

Lemma number_readBack (x : JsNumber) :
  fromJson (match SerializeJSONProperty (VNumber x) with
            | Some j => j
            | None => JNull
            end) = readBack x.
Proof. unfold readBack. simpl. destruct (isFinite x); reflexivity. Qed.

Lemma numbers_readBack (xs : list JsNumber) :
  map fromJson
      (map (fun e => match SerializeJSONProperty e with
                     | Some j => j
                     | None => JNull
                     end) (map VNumber xs))
  = map readBack xs.
Proof.
  induction xs as [|x xs IH]; [reflexivity|].
  cbn [map]. rewrite number_readBack. f_equal. exact IH.
Qed.

Lemma point_readBack (p : Point.t) :
  fromJson (match SerializeJSONProperty (Point_toJs p) with
            | Some j => j
            | None => JNull
            end) = Point_readBack p.
Proof.
  unfold Point_readBack, readBack. simpl.
  destruct (isFinite (Point.x p)), (isFinite (Point.y p)),
    (isFinite (Point.timestamp p)); reflexivity.
Qed.

Lemma points_readBack (pts : list Point.t) :
  map fromJson
      (map (fun e => match SerializeJSONProperty e with
                     | Some j => j
                     | None => JNull
                     end) (map Point_toJs pts))
  = map Point_readBack pts.
Proof.
  induction pts as [|p pts IH]; [reflexivity|].
  cbn [map]. rewrite point_readBack. f_equal. exact IH.
Qed.

Lemma stroke_readBack (s : StrokeData.t) :
  fromJson (match SerializeJSONProperty (StrokeData_toJs s) with
            | Some j => j
            | None => JNull
            end) = StrokeData_readBack s.
Proof.
  destruct s as [i pts st et [ps|]];
    unfold StrokeData_toJs, StrokeData_readBack, readBack; simpl;
    destruct (isFinite st), (isFinite et); simpl;
    rewrite ?points_readBack, ?numbers_readBack; reflexivity.
Qed.

Lemma strokes_readBack (S : list StrokeData.t) :
  map fromJson
      (map (fun e => match SerializeJSONProperty e with
                     | Some j => j
                     | None => JNull
                     end) (map StrokeData_toJs S))
  = map StrokeData_readBack S.
Proof.
  induction S as [|s S IH]; [reflexivity|].
  cbn [map]. rewrite stroke_readBack. f_equal. exact IH.
Qed.

Lemma readBack_numeric (x : JsNumber) :
  isTypeOf (readBack x) TNumber && negb (Number_isNaN (readBack x))
  = isFinite x.
Proof. destruct x as [[|]|[|]| |]; reflexivity. Qed.

Lemma readBack_type (x : JsNumber) :
  negb (isTypeOf (readBack x) TNumber) || Number_isNaN (readBack x)
  = negb (isFinite x).
Proof. destruct x as [[|]|[|]| |]; reflexivity. Qed.

Lemma isValidPoint_readBack (p : Point.t) :
  isValidPoint (Point_readBack p)
  = isFinite (Point.x p) && isFinite (Point.y p) && isFinite (Point.timestamp p).
Proof.
  destruct p as [x y t]. unfold isValidPoint, Point_readBack. simpl.
  destruct x as [[|]|[|]| |], y as [[|]|[|]| |], t as [[|]|[|]| |]; reflexivity.
Qed.

Lemma forallb_flat_map {A B : Type} (p : B -> bool) (f : A -> list B)
    (l : list A) :
  forallb p (flat_map f l) = forallb (fun a => forallb p (f a)) l.
Proof.
  induction l as [|a l IH]; simpl; [reflexivity|].
  rewrite forallb_app, IH. reflexivity.
Qed.

(** The validator accepts what is read back for a stroke exactly when all
    the numbers of the stroke are finite. *)
Lemma isValidStrokeData_readBack (s : StrokeData.t) :
  isValidStrokeData (StrokeData_readBack s) = allFinite s.
Proof.
  destruct s as [i pts st et pr].
  unfold allFinite, numbersOf, isValidStrokeData, StrokeData_readBack.
  cbn [StrokeData.id StrokeData.points StrokeData.startTime
       StrokeData.endTime StrokeData.pressure forallb].
  rewrite forallb_app, forallb_flat_map.
  assert (Hpts : forallb isValidPoint (map Point_readBack pts)
                 = forallb (fun p => forallb isFinite
                                       [Point.x p; Point.y p; Point.timestamp p])
                           pts).
  { induction pts as [|p pts IH]; [reflexivity|].
    cbn [map forallb]. rewrite IH, isValidPoint_readBack, andb_true_r.
    rewrite !andb_assoc. reflexivity. }
  assert (Hpr : forall ps,
             forallb (fun p => isTypeOf p TNumber && negb (Number_isNaN p))
                     (map readBack ps) = forallb isFinite ps).
  { induction ps as [|x ps IH]; [reflexivity|].
    cbn [map forallb]. rewrite IH, readBack_numeric. reflexivity. }
  simpl. rewrite !readBack_type.
  destruct (isFinite st); cbn [negb andb]; [|reflexivity].
  destruct (isFinite et); cbn [negb andb]; [|reflexivity].
  rewrite Hpts.
  destruct (forallb _ pts); cbn [negb andb]; [|destruct pr; reflexivity].
  destruct pr as [ps|]; simpl; [|reflexivity].
  rewrite Hpr. destruct (forallb isFinite ps); reflexivity.
Qed.

Lemma allFinite_spec (s : StrokeData.t) : allFinite s = true <-> finiteStroke s.
Proof.
  unfold allFinite, finiteStroke. rewrite forallb_forall, Forall_forall.
  tauto.
Qed.

(** X11.  Reading back what was written returns exactly when every number
    of every stroke is finite.  Otherwise it throws, and the message names
    the first stroke that holds a number that is not finite. *)
Theorem roundtrip_exactly_finite (S : list StrokeData.t) :
  ((exists l, deserialize (serialize S) = Normal l) <-> Forall finiteStroke S)
  /\ (forall i s,
        nth_error S i = Some s -> ~ finiteStroke s ->
        (forall j s', j < i -> nth_error S j = Some s' -> finiteStroke s') ->
        deserialize (serialize S)
        = Throw (Error (js "Invalid stroke data at index "
                        ++ JsString.ofIndex i))).
Proof.
  unfold deserialize, serialize, JSON_stringify_array, JSON_parse.
  cbn [bind fromJson]. rewrite strokes_readBack.
  destruct (checkStrokes_spec (map StrokeData_readBack S) 0)
    as [[Hall ->] | (k & v & Hk & Hbad & Hbefore & ->)]; cbn [bind].
  - assert (Hfin : Forall finiteStroke S).
    { apply Forall_forall. intros s Hs. apply allFinite_spec.
      rewrite <- isValidStrokeData_readBack.
      rewrite forallb_forall in Hall. apply Hall, in_map, Hs. }
    split; [split; [intros _; exact Hfin | intros _; eexists; reflexivity]|].
    intros i s Hi Hs _. exfalso. apply Hs.
    rewrite Forall_forall in Hfin. eapply Hfin, nth_error_In, Hi.
  - rewrite nth_error_map in Hk.
    destruct (nth_error S k) as [s0|] eqn:Hk0; [|discriminate].
    injection Hk as <-. rewrite isValidStrokeData_readBack in Hbad.
    assert (Hs0 : ~ finiteStroke s0)
      by (intros H; apply allFinite_spec in H; congruence).
    split.
    + split; [intros (l & H); discriminate|].
      intros Hfin. exfalso. apply Hs0.
      rewrite Forall_forall in Hfin. eapply Hfin, nth_error_In, Hk0.
    + intros i s Hi Hs Hprev.
      assert (E : k = i).
      { destruct (Nat.lt_trichotomy k i) as [Hlt | [E | Hgt]];
          [|exact E|].
        - exfalso. apply Hs0. apply (Hprev k); assumption.
        - exfalso. apply Hs. apply allFinite_spec.
          rewrite <- isValidStrokeData_readBack.
          apply (Hbefore i); [exact Hgt|].
          rewrite nth_error_map, Hi. reflexivity. }
      subst k. reflexivity.
Qed.

Lemma roundtrip_exactly_finite_witness :
  deserialize (serialize [strokeSample; strokeInfinity; strokeSample])
  = Throw (Error (js "Invalid stroke data at index " ++ JsString.ofIndex 1)).
Proof.
  destruct (roundtrip_exactly_finite
              [strokeSample; strokeInfinity; strokeSample]) as [_ Hthrow].
  apply (Hthrow 1 strokeInfinity).
  - reflexivity.
  - intros H. inversion H. discriminate.
  - intros [|j] s' Hj Hs'; [|lia]. injection Hs' as <-. repeat constructor.
Defined.

(* ================================================================== *)
(** * Properties of the components' handlers *)
(* ================================================================== *)

Section ToggleFacts.

Variable T : Type.
Variable eqb : T -> T -> bool.
Hypothesis eqb_eq : forall a b, eqb a b = true <-> a = b.

Lemma eqb_false_iff (a b : T) : eqb a b = false <-> a <> b.
Proof.
  rewrite <- eqb_eq. destruct (eqb a b); split; congruence.
Qed.

Lemma In_remove (selected : list T) (value other : T) :
  In other (filter (fun v => negb (eqb v value)) selected)
  <-> In other selected /\ other <> value.
Proof.
  rewrite filter_In, negb_true_iff, eqb_false_iff. tauto.
Qed.

Lemma remove_absent (selected : list T) (value : T) :
  ~ In value selected ->
  filter (fun v => negb (eqb v value)) selected = selected.
Proof.
  intros H. induction selected as [|a l IH]; simpl; [reflexivity|].
  destruct (eqb a value) eqn:E; simpl.
  - apply eqb_eq in E. subst. exfalso. apply H. left. reflexivity.
  - f_equal. apply IH. intros Hin. apply H. right. exact Hin.
Qed.

(** X12.  Toggling an option flips whether it is selected and leaves every
    other option as it was; a selection without repetitions stays without
    repetitions; and ticking an option that was not selected and unticking
    it again gives the selection back. *)
Theorem handleToggle_flips (selected : list T) (value : T) :
  (In value (handleToggle eqb selected value) <-> ~ In value selected)
  /\ (forall other, other <> value ->
        (In other (handleToggle eqb selected value) <-> In other selected))
  /\ (NoDup selected -> NoDup (handleToggle eqb selected value))
  /\ (~ In value selected ->
      handleToggle eqb (handleToggle eqb selected value) value = selected).
Proof.
  unfold handleToggle at 1 2 3.
  destruct (existsb (eqb value) selected) eqn:E.
  - assert (Hin : In value selected)
      by (apply (existsb_eqb_In eqb eqb_eq); exact E).
    split; [|split; [|split]].
    + rewrite In_remove. split; [intros [_ H]; congruence | tauto].
    + intros other Hneq. rewrite In_remove. tauto.
    + apply NoDup_filter.
    + tauto.
  - assert (Hout : ~ In value selected).
    { intros H. apply (existsb_eqb_In eqb eqb_eq) in H. congruence. }
    split; [|split; [|split]].
    + rewrite in_app_iff. simpl. tauto.
    + intros other Hneq. rewrite in_app_iff. simpl. split; [|tauto].
      intros [H | [H | []]]; [exact H | congruence].
    + intros Hnd. apply NoDup_app; [exact Hnd | repeat constructor; simpl; tauto|].
      intros a Ha [<- | []]. contradiction.
    + intros _. unfold handleToggle. rewrite E.
      replace (existsb (eqb value) (selected ++ [value])) with true.
      * rewrite filter_app, (@remove_absent selected value Hout). simpl.
        replace (eqb value value) with true
          by (symmetry; apply eqb_eq; reflexivity).
        simpl. apply app_nil_r.
      * symmetry. apply (existsb_eqb_In eqb eqb_eq).
        apply in_or_app. right. left. reflexivity.
Qed.

End ToggleFacts.

Lemma handleToggle_flips_witness :
  handleToggle DifficultyLevel_eqb
    (handleToggle DifficultyLevel_eqb [beginner] advanced) advanced
  = [beginner].
Proof.
  apply (@handleToggle_flips DifficultyLevel DifficultyLevel_eqb
            DifficultyLevel_eqb_eq [beginner] advanced).
  intros [H | []]. discriminate.
Defined.

Lemma DifficultyLevel_name_injective (a b : DifficultyLevel) :
  DifficultyLevel_name a = DifficultyLevel_name b -> a = b.
Proof.
  destruct a, b; intros H; try reflexivity; vm_compute in H; discriminate.
Qed.

Lemma PriceType_name_injective (a b : PriceType) :
  PriceType_name a = PriceType_name b -> a = b.
Proof.
  destruct a, b; intros H; try reflexivity; vm_compute in H; discriminate.
Qed.

Lemma Platform_name_injective (a b : Platform) :
  Platform_name a = Platform_name b -> a = b.
Proof.
  destruct a, b; intros H; try reflexivity; vm_compute in H; discriminate.
Qed.

(** Removing by name is removing by value, when names tell values apart. *)
Lemma remove_by_name {T : Type} (eqb : T -> T -> bool) (name : T -> JsString.t)
    (eqb_eq : forall a b, eqb a b = true <-> a = b)
    (name_injective : forall a b, name a = name b -> a = b)
    (selected : list T) (value : T) :
  filter (fun v => negb (JsString.eqb (name v) (name value))) selected
  = filter (fun v => negb (eqb v value)) selected.
Proof.
  apply filter_ext. intros v. f_equal.
  destruct (eqb v value) eqn:E.
  - apply eqb_eq in E. subst. apply JsString_eqb_refl.
  - apply JsString_eqb_neq. intros H. apply name_injective in H.
    apply eqb_eq in H. congruence.
Qed.

Lemma handleToggle_selected {T : Type} (eqb : T -> T -> bool)
    (eqb_eq : forall a b, eqb a b = true <-> a = b)
    (selected : list T) (value : T) :
  In value selected ->
  handleToggle eqb selected value
  = filter (fun v => negb (eqb v value)) selected.
Proof.
  intros H. unfold handleToggle.
  replace (existsb (eqb value) selected) with true; [reflexivity|].
  symmetry. apply (existsb_eqb_In eqb eqb_eq). exact H.
Qed.

(** X13.  Removing the tag of a selected value is unticking its checkbox;
    removing from [search] changes nothing; and after "Clear all" the page
    shows exactly what the search alone finds. *)
Theorem filter_tags_and_clear_all (f : ActiveFilters.t) :
  (forall d, In d (ActiveFilters.difficulty f) ->
     handleRemoveFilter f OfDifficulty (DifficultyLevel_name d)
     = Some (ActiveFilters.mk
               (handleToggle DifficultyLevel_eqb (ActiveFilters.difficulty f) d)
               (ActiveFilters.priceType f) (ActiveFilters.platforms f)
               (ActiveFilters.search f)))
  /\ (forall p, In p (ActiveFilters.priceType f) ->
        handleRemoveFilter f OfPriceType (PriceType_name p)
        = Some (ActiveFilters.mk
                  (ActiveFilters.difficulty f)
                  (handleToggle PriceType_eqb (ActiveFilters.priceType f) p)
                  (ActiveFilters.platforms f) (ActiveFilters.search f)))
  /\ (forall p, In p (ActiveFilters.platforms f) ->
        handleRemoveFilter f OfPlatforms (Platform_name p)
        = Some (ActiveFilters.mk
                  (ActiveFilters.difficulty f) (ActiveFilters.priceType f)
                  (handleToggle Platform_eqb (ActiveFilters.platforms f) p)
                  (ActiveFilters.search f)))
  /\ (forall v, handleRemoveFilter f OfSearch v = None)
  /\ (forall R,
        filteredResources R (handleClearAll f)
        = searchResources R (ActiveFilters.search f)).
Proof.
  split; [|split; [|split; [|split]]].
  - intros d Hd. unfold handleRemoveFilter.
    rewrite (@handleToggle_selected DifficultyLevel DifficultyLevel_eqb DifficultyLevel_eqb_eq _ d Hd).
    rewrite (@remove_by_name DifficultyLevel DifficultyLevel_eqb DifficultyLevel_name
               DifficultyLevel_eqb_eq DifficultyLevel_name_injective).
    reflexivity.
  - intros p Hp. unfold handleRemoveFilter.
    rewrite (@handleToggle_selected PriceType PriceType_eqb PriceType_eqb_eq _ p Hp).
    rewrite (@remove_by_name PriceType PriceType_eqb PriceType_name
               PriceType_eqb_eq PriceType_name_injective).
    reflexivity.
  - intros p Hp. unfold handleRemoveFilter.
    rewrite (@handleToggle_selected Platform Platform_eqb Platform_eqb_eq _ p Hp).
    rewrite (@remove_by_name Platform Platform_eqb Platform_name
               Platform_eqb_eq Platform_name_injective).
    reflexivity.
  - reflexivity.
  - intros R. unfold filteredResources, handleClearAll. cbv zeta.
    cbn [ActiveFilters.search].
    destruct (0 <? length (JsString.trim (ActiveFilters.search f))) eqn:E.
    + reflexivity.
    + unfold combineFilters. simpl. symmetry.
      apply searchResources_blank, length_zero_nil, E.
Qed.

Lemma filter_tags_and_clear_all_witness :
  handleRemoveFilter beginnerOnly OfDifficulty (js "beginner")
  = Some (ActiveFilters.mk (handleToggle DifficultyLevel_eqb [beginner] beginner)
                           [] [] []).
Proof.
  destruct (filter_tags_and_clear_all beginnerOnly) as [Hremove _].
  apply (Hremove beginner). simpl. left. reflexivity.
Defined.

(** X14.  In a checkbox group the arrow keys move the focus by one with
    wrap-around: from a checkbox of the group the focus always lands on a
    checkbox of the group, down from the last one is the first, up from the
    first one is the last, and up undoes down. *)
Theorem checkboxKeyDown_wraps (currentIndex count : Z) :
  (0 <= currentIndex < count)%Z ->
  checkboxKeyDown KeyArrowDown currentIndex count
  = Some (if (currentIndex + 1 =? count)%Z then 0%Z else (currentIndex + 1)%Z)
  /\ checkboxKeyDown KeyArrowUp currentIndex count
     = Some (if (currentIndex =? 0)%Z then (count - 1)%Z
             else (currentIndex - 1)%Z)
  /\ (forall next,
        checkboxKeyDown KeyArrowDown currentIndex count = Some next ->
        (0 <= next < count)%Z
        /\ checkboxKeyDown KeyArrowUp next count = Some currentIndex).
Proof.
  intros Hi.
  assert (Hdown : checkboxKeyDown KeyArrowDown currentIndex count
                  = Some (if (currentIndex + 1 =? count)%Z then 0%Z
                          else (currentIndex + 1)%Z)).
  { unfold checkboxKeyDown, focusAt.
    destruct (Z.eqb_spec count 0); [lia|].
    destruct (Z.eqb_spec (currentIndex + 1) count) as [E|E].
    - rewrite E, Z.rem_same by lia.
      replace ((0 <=? 0)%Z && (0 <? count)%Z) with true; [reflexivity|].
      symmetry. apply andb_true_iff. split; [reflexivity | apply Z.ltb_lt; lia].
    - rewrite Z.rem_small by lia.
      replace ((0 <=? currentIndex + 1)%Z && (currentIndex + 1 <? count)%Z)
        with true; [reflexivity|].
      symmetry. apply andb_true_iff.
      split; [apply Z.leb_le | apply Z.ltb_lt]; lia. }
  assert (Hup : forall i, (0 <= i < count)%Z ->
              checkboxKeyDown KeyArrowUp i count
              = Some (if (i =? 0)%Z then (count - 1)%Z else (i - 1)%Z)).
  { intros i Hr. unfold checkboxKeyDown, focusAt.
    destruct (Z.eqb_spec count 0); [lia|].
    destruct (Z.eqb_spec i 0) as [E|E].
    - subst i. replace (0 - 1 + count)%Z with (count - 1)%Z by lia.
      rewrite Z.rem_small by lia.
      replace ((0 <=? count - 1)%Z && (count - 1 <? count)%Z) with true;
        [reflexivity|].
      symmetry. apply andb_true_iff.
      split; [apply Z.leb_le | apply Z.ltb_lt]; lia.
    - replace (i - 1 + count)%Z with ((i - 1) + 1 * count)%Z by lia.
      rewrite Z.rem_add by nia.
      rewrite Z.rem_small by lia.
      replace ((0 <=? i - 1)%Z && (i - 1 <? count)%Z) with true;
        [reflexivity|].
      symmetry. apply andb_true_iff.
      split; [apply Z.leb_le | apply Z.ltb_lt]; lia. }
  split; [exact Hdown|]. split; [apply Hup; exact Hi|].
  intros next Hnext. rewrite Hdown in Hnext. injection Hnext as <-.
  destruct (Z.eqb_spec (currentIndex + 1) count) as [E|E].
  - split; [lia|]. rewrite Hup by lia. simpl. f_equal. lia.
  - split; [lia|]. rewrite Hup by lia.
    destruct (Z.eqb_spec (currentIndex + 1) 0); [lia|]. f_equal. lia.
Qed.

Lemma checkboxKeyDown_wraps_witness :
  checkboxKeyDown KeyArrowDown 3 4 = Some 0%Z.
Proof.
  destruct (@checkboxKeyDown_wraps 3 4) as [Hdown _]; [lia|]. exact Hdown.
Defined.

Lemma focusAt_Some (count i next : Z) :
  focusAt count i = Some next -> next = i /\ (0 <= next < count)%Z.
Proof.
  unfold focusAt.
  destruct (Z.leb_spec 0 i); destruct (Z.ltb_spec i count); simpl;
    try discriminate.
  intros E. injection E as <-. lia.
Qed.

Lemma focusAt_in_range (count i : Z) :
  (0 <= i < count)%Z -> focusAt count i = Some i.
Proof.
  intros H. unfold focusAt.
  destruct (Z.leb_spec 0 i); destruct (Z.ltb_spec i count); simpl;
    try lia; reflexivity.
Qed.

(** X15.  In the grid, a key never moves the focus off the cards nor onto
    the card that has it already.  [Home] and [End] go to the first and the
    last card, the right arrow stops at the last card and the left arrow at
    the first, and the down arrow goes one row down while there is one. *)
Theorem gridKeyDown_stays_on_cards (currentIndex itemCount columns : Z) :
  (0 <= currentIndex < itemCount)%Z -> (1 <= columns)%Z ->
  (forall key next,
     gridKeyDown key currentIndex itemCount columns = Some next ->
     (0 <= next < itemCount)%Z /\ next <> currentIndex)
  /\ (currentIndex <> 0%Z ->
      gridKeyDown KeyHome currentIndex itemCount columns = Some 0%Z)
  /\ (currentIndex <> (itemCount - 1)%Z ->
      gridKeyDown KeyEnd currentIndex itemCount columns
      = Some (itemCount - 1)%Z)
  /\ gridKeyDown KeyArrowRight (itemCount - 1) itemCount columns = None
  /\ gridKeyDown KeyArrowLeft 0 itemCount columns = None
  /\ ((currentIndex + columns < itemCount)%Z ->
      gridKeyDown KeyArrowDown currentIndex itemCount columns
      = Some (currentIndex + columns)%Z).
Proof.
  intros Hi Hc.
  assert (Hn : (itemCount =? 0)%Z = false) by (apply Z.eqb_neq; lia).
  split; [|split; [|split; [|split; [|split]]]].
  - intros key next. unfold gridKeyDown. rewrite Hn.
    destruct key; cbv zeta; cbn [negb];
      try discriminate;
      match goal with |- context [(?n =? currentIndex)%Z] =>
        destruct (Z.eqb_spec n currentIndex); cbn [negb];
        [discriminate|];
        intros H; apply focusAt_Some in H; destruct H as [-> H];
        split; [exact H | assumption]
      end.
  - intros H. unfold gridKeyDown. rewrite Hn. cbv zeta.
    destruct (Z.eqb_spec 0 currentIndex); [lia|]. cbn [negb].
    apply focusAt_in_range. lia.
  - intros H. unfold gridKeyDown. rewrite Hn. cbv zeta.
    destruct (Z.eqb_spec (itemCount - 1) currentIndex); [lia|]. cbn [negb].
    apply focusAt_in_range. lia.
  - unfold gridKeyDown. rewrite Hn. cbv zeta.
    replace (Z.min (itemCount - 1 + 1) (itemCount - 1)) with (itemCount - 1)%Z
      by lia.
    rewrite Z.eqb_refl. reflexivity.
  - unfold gridKeyDown. rewrite Hn. cbv zeta.
    replace (Z.max (0 - 1) 0) with 0%Z by lia. reflexivity.
  - intros H. unfold gridKeyDown. rewrite Hn. cbv zeta.
    replace (Z.min (currentIndex + columns) (itemCount - 1))
      with (currentIndex + columns)%Z by lia.
    destruct (Z.eqb_spec (currentIndex + columns) currentIndex); [lia|].
    cbn [negb]. apply focusAt_in_range. lia.
Qed.

Lemma gridKeyDown_stays_on_cards_witness :
  gridKeyDown KeyArrowDown 1 8 3 = Some 4%Z.
Proof.
  destruct (@gridKeyDown_stays_on_cards 1 8 3) as (_ & _ & _ & _ & _ & Hdown);
    [lia | lia |].
  apply Hdown. lia.
Defined.

Lemma Set_has_delete (s : StringSet) (x y : JsString.t) :
  Set_has (Set_delete s x) y = Set_has s y && negb (JsString.eqb y x).
Proof.
  unfold Set_has, Set_delete, includesString.
  induction s as [|a s IH]; simpl; [reflexivity|].
  destruct (JsString.eqb a x) eqn:Eax; simpl.
  - rewrite IH. apply JsString_eqb_eq in Eax. subst a.
    destruct (JsString.eqb y x); simpl; [|reflexivity].
    rewrite andb_false_r. reflexivity.
  - rewrite IH. destruct (JsString.eqb y a) eqn:Eya; simpl; [|reflexivity].
    apply JsString_eqb_eq in Eya. subst a. rewrite Eax. reflexivity.
Qed.

Lemma Set_has_add (s : StringSet) (x y : JsString.t) :
  Set_has (Set_add s x) y = Set_has s y || JsString.eqb y x.
Proof.
  unfold Set_add. destruct (Set_has s x) eqn:E.
  - destruct (JsString.eqb y x) eqn:Eyx; [|rewrite orb_false_r; reflexivity].
    apply JsString_eqb_eq in Eyx. subst y. rewrite E. reflexivity.
  - unfold Set_has, includesString. rewrite existsb_app. simpl.
    rewrite orb_false_r. reflexivity.
Qed.

Lemma Set_has_toggle (s : StringSet) (x y : JsString.t) :
  Set_has (toggleCategory s x) y
  = if JsString.eqb y x then negb (Set_has s x) else Set_has s y.
Proof.
  unfold toggleCategory. cbv zeta.
  destruct (Set_has s x) eqn:E.
  - rewrite Set_has_delete.
    destruct (JsString.eqb y x) eqn:Eyx; simpl;
      [apply andb_false_r | apply andb_true_r].
  - rewrite Set_has_add.
    destruct (JsString.eqb y x) eqn:Eyx; simpl;
      [apply orb_true_r | apply orb_false_r].
Qed.

(** X16.  In the category navigation, [toggleCategory] flips whether the
    category is expanded.  The right arrow on a category with subcategories
    leaves it expanded and the left arrow leaves it collapsed, whatever it
    was before; no key changes any other category, and a category without
    subcategories is never changed. *)
Theorem navKeyDown_expands_and_collapses
    (expanded : StringSet) (categoryId : JsString.t) :
  Set_has (toggleCategory expanded categoryId) categoryId
  = negb (Set_has expanded categoryId)
  /\ Set_has (navKeyDown expanded KeyArrowRight categoryId true) categoryId
     = true
  /\ Set_has (navKeyDown expanded KeyArrowLeft categoryId true) categoryId
     = false
  /\ (forall key has other,
        other <> categoryId ->
        Set_has (navKeyDown expanded key categoryId has) other
        = Set_has expanded other)
  /\ (forall key, navKeyDown expanded key categoryId false = expanded).
Proof.
  split; [|split; [|split; [|split]]].
  - rewrite Set_has_toggle, JsString_eqb_refl. reflexivity.
  - unfold navKeyDown. cbn [andb].
    destruct (Set_has expanded categoryId) eqn:E; cbn [negb]; [exact E|].
    rewrite Set_has_toggle, JsString_eqb_refl, E. reflexivity.
  - unfold navKeyDown. cbn [andb].
    destruct (Set_has expanded categoryId) eqn:E; [|exact E].
    rewrite Set_has_toggle, JsString_eqb_refl, E. reflexivity.
  - intros key has other Hneq. apply JsString_eqb_neq in Hneq.
    unfold navKeyDown.
    destruct key; try reflexivity;
      match goal with |- context [if ?c then _ else _] => destruct c end;
      try reflexivity; rewrite Set_has_toggle, Hneq; reflexivity.
  - intros key. destruct key; reflexivity.
Qed.

Lemma navKeyDown_expands_and_collapses_witness :
  Set_has (navKeyDown [js "apps"] KeyArrowLeft (js "apps") true) (js "games")
  = Set_has [js "apps"] (js "games").
Proof.
  destruct (navKeyDown_expands_and_collapses [js "apps"] (js "apps"))
    as (_ & _ & _ & Hother & _).
  apply Hother. apply JsString_eqb_neq. reflexivity.
Defined.

(* ================================================================== *)
(** * Properties of the data module and of the structured data *)
(* ================================================================== *)

Lemma length_concat_sum {A : Type} (ls : list (list A)) :
  length (concat ls) = sum (map (@length A) ls).
Proof.
  unfold sum. induction ls as [|l ls IH]; simpl; [reflexivity|].
  rewrite length_app, IH. reflexivity.
Qed.

Lemma sum_map_add {A : Type} (f g : A -> nat) (l : list A) :
  sum (map (fun a => f a + g a) l) = sum (map f l) + sum (map g l).
Proof.
  unfold sum. induction l as [|a l IH]; simpl; [reflexivity|]. lia.
Qed.

Lemma sum_indicator_NoDup (x : JsString.t) (ids : list JsString.t) :
  NoDup ids ->
  sum (map (fun s => if JsString.eqb x s then 1 else 0) ids) <= 1.
Proof.
  unfold sum. induction 1 as [|s ids Hs Hnd IH]; simpl; [lia|].
  destruct (JsString.eqb x s) eqn:E; [|lia].
  apply JsString_eqb_eq in E. subst s.
  assert (Hz : fold_right Nat.add 0
                 (map (fun s => if JsString.eqb x s then 1 else 0) ids) = 0).
  { clear - Hs. induction ids as [|s ids IH]; simpl; [reflexivity|].
    destruct (JsString.eqb x s) eqn:E.
    - apply JsString_eqb_eq in E. subst s. exfalso. apply Hs. left. reflexivity.
    - apply IH. intros H. apply Hs. right. exact H. }
  lia.
Qed.

(** Counting a list once per key of a duplicate-free list of keys counts no
    element twice. *)
Lemma counts_by_key (key : Resource.t -> JsString.t) (ids : list JsString.t)
    (L : list Resource.t) :
  NoDup ids ->
  sum (map (fun s => length (filter (fun r => JsString.eqb (key r) s) L)) ids)
  <= length L.
Proof.
  intros Hnd. induction L as [|r L IH]; simpl.
  - unfold sum. clear Hnd. induction ids; simpl; [lia | assumption].
  - assert (E : map (fun s => length (if JsString.eqb (key r) s
                                       then r :: filter (fun r0 => JsString.eqb (key r0) s) L
                                       else filter (fun r0 => JsString.eqb (key r0) s) L))
                    ids
                = map (fun s => (if JsString.eqb (key r) s then 1 else 0)
                                + length (filter (fun r0 => JsString.eqb (key r0) s) L))
                      ids).
    { apply map_ext. intros s. destruct (JsString.eqb (key r) s); reflexivity. }
    rewrite E, sum_map_add.
    pose proof (sum_indicator_NoDup (key r) Hnd). lia.
Qed.

Section DataFacts.

Variable categories : list Category.t.
Variable resourcesByCategory : CategoryId -> list Resource.t.

(** X17.  Whatever the state of the cache, as long as it is empty or holds
    what [getAllResources] put there, the total count is the sum of the
    sixteen category counts; [getAllResources] leaves the cache filled, and
    a second call gives the same list. *)
Theorem getTotalResourceCount_sums (cache : Cache) :
  cacheCoherent resourcesByCategory cache ->
  fst (getTotalResourceCount resourcesByCategory cache)
  = sum (map (getCategoryResourceCount resourcesByCategory) CATEGORY_IDS)
  /\ cacheCoherent resourcesByCategory
       (snd (getAllResources resourcesByCategory cache))
  /\ snd (getAllResources resourcesByCategory cache) <> None
  /\ fst (getAllResources resourcesByCategory
            (snd (getAllResources resourcesByCategory cache)))
     = fst (getAllResources resourcesByCategory cache).
Proof.
  intros [-> | ->]; unfold getTotalResourceCount, getAllResources;
    cbn [fst snd]; rewrite length_concat_sum, map_map;
    (split; [reflexivity|]); (split; [right; reflexivity|]);
    (split; [discriminate | reflexivity]).
Qed.

(** X18.  [getCategoriesWithCounts] lists the categories as they are and
    each with its subcategories as they are; a category's count is the size
    of its file, no subcategory's count exceeds it, and when the
    subcategories of a category have different ids their counts together do
    not exceed it either. *)
Theorem getCategoriesWithCounts_consistent :
  map CategoryWithCount.category
      (getCategoriesWithCounts categories resourcesByCategory)
  = categories
  /\ forall cw,
       In cw (getCategoriesWithCounts categories resourcesByCategory) ->
       CategoryWithCount.resourceCount cw
       = length (resourcesByCategory
                   (Category.id (CategoryWithCount.category cw)))
       /\ map SubcategoryWithCount.subcategory
              (CategoryWithCount.subcategoriesWithCount cw)
          = Category.subcategories (CategoryWithCount.category cw)
       /\ (forall sw,
             In sw (CategoryWithCount.subcategoriesWithCount cw) ->
             SubcategoryWithCount.resourceCount sw
             <= CategoryWithCount.resourceCount cw)
       /\ (NoDup (map Subcategory.id
                      (Category.subcategories (CategoryWithCount.category cw))) ->
           sum (map SubcategoryWithCount.resourceCount
                    (CategoryWithCount.subcategoriesWithCount cw))
           <= CategoryWithCount.resourceCount cw).
Proof.
  unfold getCategoriesWithCounts. split.
  - rewrite map_map. cbn [CategoryWithCount.category]. apply map_id.
  - intros cw Hcw. apply in_map_iff in Hcw. destruct Hcw as (c & <- & _).
    cbn [CategoryWithCount.category CategoryWithCount.resourceCount
         CategoryWithCount.subcategoriesWithCount].
    unfold getCategoryResourceCount, getSubcategoryResourceCount,
      getResourcesBySubcategory, getResourcesByCategory.
    split; [reflexivity|]. split; [|split].
    + rewrite map_map. cbn [SubcategoryWithCount.subcategory]. apply map_id.
    + intros sw Hsw. apply in_map_iff in Hsw. destruct Hsw as (s & <- & _).
      cbn [SubcategoryWithCount.resourceCount].
      apply Subsequence_length, filter_Subsequence.
    + intros Hnd. rewrite map_map. cbn [SubcategoryWithCount.resourceCount].
      pose proof (@counts_by_key Resource.subcategory
                    (map Subcategory.id (Category.subcategories c))
                    (resourcesByCategory (Category.id c)) Hnd) as H.
      rewrite map_map in H. exact H.
Qed.

End DataFacts.

Lemma getTotalResourceCount_sums_witness :
  let files := fun c => if CategoryId_eqb c apps then [recordA; recordB] else [] in
  fst (getTotalResourceCount files None) = 2
  /\ fst (getAllResources files (snd (getAllResources files None)))
     = [recordA; recordB].
Proof.
  intros files.
  destruct (@getTotalResourceCount_sums files None (or_introl eq_refl))
    as (Htotal & _ & _ & Hagain).
  split.
  - rewrite Htotal. reflexivity.
  - rewrite Hagain. reflexivity.
Defined.

Lemma getCategoriesWithCounts_consistent_witness :
  let files := fun c => if CategoryId_eqb c apps then [recordA; recordB] else [] in
  let flashcards :=
    Subcategory.mk (js "flashcards") (js "Flashcards") [] [] [] apps in
  let category :=
    Category.mk apps (js "Apps") [] [] [] (js "smartphone") [flashcards]
                (S754_zero false) in
  Forall (fun cw =>
            CategoryWithCount.resourceCount cw = 2
            /\ sum (map SubcategoryWithCount.resourceCount
                        (CategoryWithCount.subcategoriesWithCount cw)) <= 2)
         (getCategoriesWithCounts [category] files).
Proof.
  intros files flashcards category. apply Forall_forall. intros cw Hin.
  destruct (@getCategoriesWithCounts_consistent [category] files) as [_ Hall].
  destruct (Hall cw Hin) as (Hcount & _ & _ & Hsum).
  destruct Hin as [<- | []].
  split; [exact Hcount|].
  apply Hsum. cbn. constructor; [intros [] | constructor].
Defined.

Lemma mapWithIndex_length {A B : Type} (f : A -> nat -> B) (i : nat)
    (xs : list A) :
  length (mapWithIndex f i xs) = length xs.
Proof.
  revert i; induction xs as [|x xs IH]; intros i; simpl; [reflexivity|].
  rewrite IH. reflexivity.
Qed.

(** Where the function given uses the index for one member only, the other
    members are a plain [map], and the indexed member counts up. *)
Lemma mapWithIndex_split {A B C : Type} (f : A -> nat -> B) (g : B -> C)
    (h : A -> C) (i : nat) (xs : list A) :
  (forall a n, g (f a n) = h a) ->
  map g (mapWithIndex f i xs) = map h xs.
Proof.
  intros Hg. revert i; induction xs as [|x xs IH]; intros i; simpl;
    [reflexivity|]. rewrite Hg, IH. reflexivity.
Qed.

Lemma mapWithIndex_positions {A B : Type} (f : A -> nat -> B) (pos : B -> nat)
    (i : nat) (xs : list A) :
  (forall a n, pos (f a n) = n + 1) ->
  map pos (mapWithIndex f i xs) = seq (i + 1) (length xs).
Proof.
  intros Hpos. revert i; induction xs as [|x xs IH]; intros i; simpl;
    [reflexivity|]. rewrite Hpos, IH. reflexivity.
Qed.

Lemma mapWithIndex_Forall2 {A B : Type} (f : A -> nat -> B)
    (R : A -> B -> Prop) (i : nat) (xs : list A) :
  (forall a n, R a (f a n)) ->
  Forall2 R xs (mapWithIndex f i xs).
Proof.
  intros HR. revert i; induction xs as [|x xs IH]; intros i; simpl;
    constructor; auto.
Qed.


Lemma join_nonempty (sep p : JsString.t) (rest : list JsString.t) :
  p <> [] -> JsString.join sep (p :: rest) <> [].
Proof.
  intros Hp. destruct rest as [|q rest]; simpl; [exact Hp|].
  destruct p; [congruence | discriminate].
Qed.

Lemma mapPlatformsToOS_empty (platforms : list Platform) :
  mapPlatformsToOS platforms = [] <-> Forall (fun p => osMap p = None) platforms.
Proof.
  unfold mapPlatformsToOS. split.
  - intros H.
    assert (Hnil : filter (fun p => truthy (osMap p)) platforms = []).
    { destruct (filter (fun p => truthy (osMap p)) platforms) as [|p ps] eqn:E;
        [reflexivity|]. exfalso.
      assert (Hp : In p (filter (fun p => truthy (osMap p)) platforms))
        by (rewrite E; left; reflexivity).
      apply filter_In in Hp. destruct Hp as [_ Hp].
      cbn [map] in H. revert H. apply join_nonempty.
      destruct (osMap p) as [[|x s]|]; simpl in *; congruence. }
    apply Forall_forall. intros p Hp.
    destruct (osMap p) as [s|] eqn:E; [|reflexivity]. exfalso.
    assert (Hin : In p (filter (fun p => truthy (osMap p)) platforms)).
    { apply filter_In. split; [assumption|]. rewrite E.
      destruct p; simpl in E; inversion E; reflexivity. }
    rewrite Hnil in Hin. exact Hin.
  - intros H.
    assert (Hnil : filter (fun p => truthy (osMap p)) platforms = []).
    { induction H as [|p ps Hp _ IH]; simpl; [reflexivity|].
      rewrite Hp. exact IH. }
    rewrite Hnil. reflexivity.
Qed.

(** X20.  The ItemList schema of a list of resources says how many there
    are and has one element per resource, in order and numbered 1, 2, ...;
    each element carries the name, description and url of its resource, is a
    SoftwareApplication exactly for the category apps and a Book exactly for
    textbooks, and otherwise a WebPage. *)
Theorem generateItemListSchema_elements (name description : JsString.t)
    (resources : list Resource.t) :
  let schema := generateItemListSchema name description resources in
  ItemList.numberOfItems schema = length (ItemList.itemListElement schema)
  /\ map ListItem.position (ItemList.itemListElement schema)
     = seq 1 (length resources)
  /\ map (fun e => itemTexts (ListItem.item e)) (ItemList.itemListElement schema)
     = map resourceTexts resources
  /\ Forall2 (fun r e => typeFits r (ListItem.item e))
             resources (ItemList.itemListElement schema).
Proof.
  intros schema. subst schema. unfold generateItemListSchema.
  cbn [ItemList.numberOfItems ItemList.itemListElement].
  split; [|split; [|split]].
  - rewrite mapWithIndex_length. reflexivity.
  - apply (mapWithIndex_positions _ ListItem.position 0).
    intros a n. unfold generateListItem.
    destruct (Resource.category a); reflexivity.
  - apply mapWithIndex_split. intros a n. unfold generateListItem.
    destruct (Resource.category a); reflexivity.
  - apply mapWithIndex_Forall2. intros a n. unfold generateListItem.
    destruct (Resource.category a) eqn:E; cbn; rewrite ?E;
      try reflexivity; split; discriminate.
Qed.

(** X21.  What an application's item says beyond its texts: it names an
    operating system exactly when one of the platforms is in the table
    [osMap], an offer exactly when the resource is free or has price
    details, a free resource's offer being the price 0 in USD, and a rating
    exactly when the resource has one that is neither zero nor NaN. *)
Theorem generateSoftwareApplicationItem_members (resource : Resource.t)
    (position : nat) :
  Resource.category resource = apps ->
  exists os offers rating,
    ListItem.item (generateListItem resource position)
    = SoftwareApplication (Resource.name resource)
        (Resource.description resource) (Resource.url resource)
        os offers rating
    /\ (os = None <->
        Forall (fun p => osMap p = None) (Resource.platforms resource))
    /\ (offers = None <->
        Resource.priceType resource <> free
        /\ truthy (Resource.priceDetails resource) = false)
    /\ (Resource.priceType resource = free ->
        offers = Some (Offer.mk (js "0") (Some (js "USD"))))
    /\ (rating = None <-> truthyNumber (Resource.rating resource) = false)
    /\ (rating <> None -> rating = Resource.rating resource).
Proof.
  intros Hcat. unfold generateListItem. rewrite Hcat.
  unfold generateSoftwareApplicationItem. cbn [ListItem.item].
  eexists _, _, _. split; [reflexivity|].
  split; [|split; [|split; [|split]]].
  - rewrite <- mapPlatformsToOS_empty. unfold whenTruthy.
    destruct (mapPlatformsToOS (Resource.platforms resource));
      split; congruence.
  - unfold mapPriceToOffer.
    destruct (PriceType_eqb (Resource.priceType resource) free) eqn:E.
    + apply PriceType_eqb_eq in E. split; [discriminate|].
      intros [H _]. contradiction.
    + assert (Hne : Resource.priceType resource <> free).
      { intros H. apply PriceType_eqb_eq in H. congruence. }
      destruct (truthy (Resource.priceDetails resource)); split;
        try discriminate; try tauto. intros [_ H]; discriminate.
  - intros Hfree. unfold mapPriceToOffer. rewrite Hfree. reflexivity.
  - unfold ratingWhenTruthy.
    destruct (truthyNumber (Resource.rating resource)) eqn:E.
    + split; [|discriminate]. intros H. rewrite H in E. discriminate.
    + tauto.
  - unfold ratingWhenTruthy.
    destruct (truthyNumber (Resource.rating resource)); congruence.
Qed.

Lemma generateSoftwareApplicationItem_members_witness :
  exists os offers rating,
    ListItem.item (generateListItem recordA 1)
    = SoftwareApplication (js "Anki") (js "Flashcards")
        (js "https://apps.example/a") os offers rating
    /\ os <> None
    /\ offers = Some (Offer.mk (js "0") (Some (js "USD")))
    /\ rating = None.
Proof.
  destruct (@generateSoftwareApplicationItem_members recordA 1 eq_refl)
    as (os & offers & rating & Hitem & Hos & _ & Hfree & Hrating & _).
  exists os, offers, rating. split; [exact Hitem|]. split; [|split].
  - intros H. apply Hos in H. inversion H as [|p ps Hp _]. discriminate Hp.
  - apply Hfree. reflexivity.
  - apply Hrating. reflexivity.
Defined.

Lemma CATEGORY_IDS_complete (c : CategoryId) : In c CATEGORY_IDS.
Proof. destruct c; simpl; tauto. Qed.

Lemma filter_concat {A : Type} (f : A -> bool) (ls : list (list A)) :
  filter f (concat ls) = concat (map (filter f) ls).
Proof.
  induction ls as [|l ls IH]; simpl; [reflexivity|].
  rewrite filter_app, IH. reflexivity.
Qed.

Section DataLookups.

Variable categories : list Category.t.
Variable resourcesByCategory : CategoryId -> list Resource.t.

Lemma getAllResources_coherent (cache : Cache) :
  cacheCoherent resourcesByCategory cache ->
  fst (getAllResources resourcesByCategory cache)
  = concat (map resourcesByCategory CATEGORY_IDS).
Proof. intros [-> | ->]; reflexivity. Qed.

Lemma In_allResources (r : Resource.t) :
  In r (concat (map resourcesByCategory CATEGORY_IDS))
  <-> exists c, In r (resourcesByCategory c).
Proof.
  rewrite in_concat. split.
  - intros (l & Hl & Hr). apply in_map_iff in Hl. destruct Hl as (c & <- & _).
    exists c. exact Hr.
  - intros (c & Hr). exists (resourcesByCategory c). split; [|exact Hr].
    apply in_map, CATEGORY_IDS_complete.
Qed.

(** X22.  [getResourceById] finds a resource of one of the sixteen files
    with the id asked for, and finds nothing only when no file has one;
    [getSubcategoryById] finds a subcategory with the id asked for that
    belongs to the first category with the category id asked for, and
    nothing when no category or no such subcategory of it exists. *)
Theorem lookups_by_id (cache : Cache) (id categoryId subcategoryId : JsString.t) :
  cacheCoherent resourcesByCategory cache ->
  (forall r,
     fst (getResourceById resourcesByCategory cache id) = Some r ->
     Resource.id r = id /\ exists c, In r (resourcesByCategory c))
  /\ (fst (getResourceById resourcesByCategory cache id) = None <->
      forall c r, In r (resourcesByCategory c) -> Resource.id r <> id)
  /\ (forall sub,
        getSubcategoryById categories categoryId subcategoryId = Some sub ->
        Subcategory.id sub = subcategoryId
        /\ exists category,
             getCategoryById categories categoryId = Some category
             /\ In category categories
             /\ CategoryId_name (Category.id category) = categoryId
             /\ In sub (Category.subcategories category))
  /\ (getSubcategoryById categories categoryId subcategoryId = None <->
      getCategoryById categories categoryId = None
      \/ exists category,
           getCategoryById categories categoryId = Some category
           /\ forall sub, In sub (Category.subcategories category) ->
                          Subcategory.id sub <> subcategoryId).
Proof.
  intros Hcache.
  assert (Hall : fst (getResourceById resourcesByCategory cache id)
                 = find (fun r => JsString.eqb (Resource.id r) id)
                        (concat (map resourcesByCategory CATEGORY_IDS))).
  { unfold getResourceById.
    pose proof (getAllResources_coherent Hcache) as H.
    destruct (getAllResources resourcesByCategory cache) as [all cache'].
    cbn [fst] in *. rewrite H. reflexivity. }
  rewrite Hall. split; [|split; [|split]].
  - intros r Hr. apply find_some in Hr. destruct Hr as [Hin Hid].
    apply JsString_eqb_eq in Hid. split; [exact Hid|].
    apply In_allResources. exact Hin.
  - split.
    + intros Hnone c r Hr. apply JsString_eqb_neq.
      apply (find_none _ _ Hnone). apply In_allResources. exists c. exact Hr.
    + intros Hno.
      destruct (find (fun r => JsString.eqb (Resource.id r) id)
                     (concat (map resourcesByCategory CATEGORY_IDS)))
        as [r|] eqn:E; [|reflexivity].
      apply find_some in E. destruct E as [Hin Hid].
      apply JsString_eqb_eq in Hid. apply In_allResources in Hin.
      destruct Hin as (c & Hr). exfalso. exact (Hno c r Hr Hid).
  - intros sub. unfold getSubcategoryById.
    destruct (getCategoryById categories categoryId) as [category|] eqn:Ec;
      [|discriminate].
    intros Hs. apply find_some in Hs. destruct Hs as [Hin Hid].
    apply JsString_eqb_eq in Hid. split; [exact Hid|].
    exists category. unfold getCategoryById in Ec. apply find_some in Ec.
    destruct Ec as [Hc Hcid]. apply JsString_eqb_eq in Hcid.
    repeat split; assumption.
  - unfold getSubcategoryById.
    destruct (getCategoryById categories categoryId) as [category|] eqn:Ec.
    + split.
      * intros Hnone. right. exists category. split; [reflexivity|].
        intros sub Hsub. apply JsString_eqb_neq.
        apply (find_none _ _ Hnone). exact Hsub.
      * intros [H | (category' & Hc & Hno)]; [discriminate|].
        injection Hc as <-.
        destruct (find (fun sub => JsString.eqb (Subcategory.id sub) subcategoryId)
                       (Category.subcategories category)) as [sub|] eqn:E;
          [|reflexivity].
        apply find_some in E. destruct E as [Hin Hid].
        apply JsString_eqb_eq in Hid. exfalso. exact (Hno sub Hin Hid).
    + split; [intros _; left; reflexivity | reflexivity].
Qed.

(** X23.  The featured resources are the featured resources of the sixteen
    categories one after the other; each of them has [featured] true, and
    the featured resources of a category are those of its file, in the
    file's order. *)
Theorem getFeaturedResources_by_category (cache : Cache) :
  cacheCoherent resourcesByCategory cache ->
  fst (getFeaturedResources resourcesByCategory cache)
  = concat (map (getFeaturedResourcesByCategory resourcesByCategory)
                CATEGORY_IDS)
  /\ (forall r,
        In r (fst (getFeaturedResources resourcesByCategory cache)) <->
        Resource.featured r = Some true
        /\ exists c, In r (resourcesByCategory c))
  /\ (forall c,
        Subsequence (getFeaturedResourcesByCategory resourcesByCategory c)
                    (resourcesByCategory c)).
Proof.
  intros Hcache.
  assert (Hall : fst (getFeaturedResources resourcesByCategory cache)
                 = filter isFeatured
                     (concat (map resourcesByCategory CATEGORY_IDS))).
  { unfold getFeaturedResources.
    pose proof (getAllResources_coherent Hcache) as H.
    destruct (getAllResources resourcesByCategory cache) as [all cache'].
    cbn [fst] in *. rewrite H. reflexivity. }
  rewrite Hall. split; [|split].
  - rewrite filter_concat, map_map. reflexivity.
  - intros r. rewrite filter_In, In_allResources. unfold isFeatured.
    destruct (Resource.featured r) as [[|]|]; split;
      intros [H1 H2]; split; try assumption; try reflexivity;
      discriminate.
  - intros c. apply filter_Subsequence.
Qed.

End DataLookups.

Lemma lookups_by_id_witness :
  let files := fun c => if CategoryId_eqb c apps then [recordA; recordB] else [] in
  fst (getResourceById files None (js "nowhere")) = None.
Proof.
  intros files.
  destruct (@lookups_by_id [] files None (js "nowhere") (js "apps") (js "x")
              (or_introl eq_refl)) as (_ & Hnone & _).
  apply Hnone. intros c r Hr. subst files. cbv beta in Hr.
  destruct (CategoryId_eqb c apps); [|destruct Hr].
  destruct Hr as [<- | [<- | []]]; discriminate.
Defined.

Lemma getFeaturedResources_by_category_witness :
  let files := fun c => if CategoryId_eqb c apps then [recordA; recordB] else [] in
  fst (getFeaturedResources files None) = [].
Proof.
  intros files.
  destruct (@getFeaturedResources_by_category files None (or_introl eq_refl))
    as (Hfeatured & _).
  rewrite Hfeatured. reflexivity.
Defined.
